(** * Unite-AI: the claim verification pipeline of [base_llm_service.py]

    A shallow embedding of [BaseLLMService]'s veracity pipeline (query
    expansion, evidence gathering, ranking, verdict parsing and source
    reconciliation) together with the properties its specification
    states about it.

    Conventions of the embedding:
    - Python [str] is [string]: text over the code points 0..255, where
      the code points beyond ASCII are plain characters (no case, not
      blank, not part of a word);
    - Python [int] is [Z];
    - a Python exception is an explicit [Raises] outcome, [try/except] is
      a [match] on the outcome;
    - the service object's mutable attribute [_current_search_results] is
      threaded explicitly through the calls that read or write it. *)

From Stdlib Require Import String Ascii List ZArith Lia Bool Arith DecimalString.
From Stdlib Require Import Sorting.Sorted Sorting.Permutation.
Import ListNotations.

Local Open Scope string_scope.
Local Open Scope Z_scope.

(** ** Constants for veracity analysis *)

Definition MAX_SEARCH_QUERIES : Z := 8.
Definition RESULTS_PER_QUERY : Z := 3.
Definition MAX_FILTERED_RESULTS : Z := 5.
Definition MIN_SNIPPET_LENGTH : Z := 50.
Definition MIN_URL_LENGTH : Z := 5.
Definition MIN_WORD_LENGTH_FOR_MATCHING : Z := 3.
Definition MIN_RELEVANCE_SCORE : Z := 2.
Definition AUTO_MAP_FALLBACK_SOURCES : Z := 2.

(** The double quote character. *)
Definition dquote : ascii := "034"%char.

(** ** Python string operations *)

Module Py.

(** [len(s)] *)
Definition len (s : string) : Z := Z.of_nat (String.length s).

(** [str.isspace] on one character: TAB..CR, FS..US and the blank. *)
Definition isspace (c : ascii) : bool :=
  let n := nat_of_ascii c in
  ((9 <=? n) && (n <=? 13) || (28 <=? n) && (n <=? 32))%nat.

Definition isupper (c : ascii) : bool :=
  let n := nat_of_ascii c in ((65 <=? n) && (n <=? 90))%nat.

Definition islower (c : ascii) : bool :=
  let n := nat_of_ascii c in ((97 <=? n) && (n <=? 122))%nat.

Definition isdigit (c : ascii) : bool :=
  let n := nat_of_ascii c in ((48 <=? n) && (n <=? 57))%nat.

(** the class [\w] of [re] *)
Definition isword (c : ascii) : bool :=
  isupper c || islower c || isdigit c || Ascii.eqb c "_".

Definition lower_char (c : ascii) : ascii :=
  if isupper c then ascii_of_nat (nat_of_ascii c + 32) else c.

(** [s.lower()] *)
Fixpoint lower (s : string) : string :=
  match s with
  | EmptyString => EmptyString
  | String c s' => String (lower_char c) (lower s')
  end.

Definition is_empty (s : string) : bool :=
  match s with EmptyString => true | _ => false end.

Fixpoint lstrip (s : string) : string :=
  match s with
  | EmptyString => EmptyString
  | String c s' => if isspace c then lstrip s' else s
  end.

Fixpoint rstrip (s : string) : string :=
  match s with
  | EmptyString => EmptyString
  | String c s' =>
      let r := rstrip s' in
      if isspace c && is_empty r then EmptyString else String c r
  end.

(** [s.strip()] *)
Definition strip (s : string) : string := rstrip (lstrip s).

(** [s.startswith(p)] *)
Fixpoint startswith (p s : string) : bool :=
  match p, s with
  | EmptyString, _ => true
  | String a p', String b s' => Ascii.eqb a b && startswith p' s'
  | String _ _, EmptyString => false
  end.

(** [needle in hay] for two strings *)
Fixpoint contains (needle hay : string) : bool :=
  startswith needle hay ||
  match hay with
  | EmptyString => false
  | String _ hay' => contains needle hay'
  end.

(** [c in chars] for one character *)
Fixpoint char_in (c : ascii) (chars : string) : bool :=
  match chars with
  | EmptyString => false
  | String d chars' => Ascii.eqb c d || char_in c chars'
  end.

Fixpoint split_from (cur : string) (s : string) : list string :=
  match s with
  | EmptyString => if is_empty cur then [] else [cur]
  | String c s' =>
      if isspace c
      then (if is_empty cur then split_from "" s' else cur :: split_from "" s')
      else split_from (cur ++ String c "") s'
  end.

(** [s.split()]: the maximal runs of non-space characters *)
Definition split (s : string) : list string := split_from "" s.

(** [set(l)] for a list of strings: each string once.  The code only
    ever sums over such a set, so its iteration order is immaterial. *)
Definition set (l : list string) : list string := nodup string_dec l.

(** [l[:n]] *)
Definition slice_to {A} (l : list A) (n : Z) : list A :=
  if 0 <=? n then firstn (Z.to_nat n) l
  else firstn (Z.to_nat (Z.of_nat (length l) + n)) l.

(** [l.insert(i, x)]: an index out of range is clamped to the ends *)
Definition insert {A} (l : list A) (i : Z) (x : A) : list A :=
  let n := Z.of_nat (length l) in
  let i := if i <? 0 then Z.max 0 (i + n) else Z.min i n in
  (firstn (Z.to_nat i) l ++ x :: skipn (Z.to_nat i) l)%list.

(** [s[:n]] for a non-negative literal [n] *)
Fixpoint prefix_of (n : nat) (s : string) : string :=
  match n, s with
  | S n', String c s' => String c (prefix_of n' s')
  | _, _ => EmptyString
  end.

(** [sum(1 for x in l if p(x))] *)
Definition count {A} (p : A -> bool) (l : list A) : Z :=
  Z.of_nat (length (filter p l)).

End Py.

(** ** Evidence items *)

(** One web search result, as [SearchService.search] builds it; the key
    [_relevance_score] is the scratch entry the ranker adds and pops. *)
Record EvidenceItem := mkEvidence {
  title : string;
  url : string;
  snippet : string;
  age : string;
  _relevance_score : option Z
}.

Definition set_relevance_score (r : EvidenceItem) (score : Z) : EvidenceItem :=
  mkEvidence (title r) (url r) (snippet r) (age r) (Some score).

(** [result.pop('_relevance_score', None)] *)
Definition pop_relevance_score (r : EvidenceItem) : EvidenceItem :=
  mkEvidence (title r) (url r) (snippet r) (age r) None.

(** [x.get('_relevance_score', 0)] *)
Definition get_relevance_score (r : EvidenceItem) : Z :=
  match _relevance_score r with Some s => s | None => 0 end.

(** ** The evidence ranker: [_filter_search_results] *)

(** [sum(1 for word in claim_words if len(word) > 3 and word in text)] *)
Definition matching (claim_words : list string) (text : string) : Z :=
  Py.count (fun word => (MIN_WORD_LENGTH_FOR_MATCHING <? Py.len word)
                        && Py.contains word text) claim_words.

(** The score the loop body computes once both length gates are passed. *)
Definition relevance (claim_words : list string) (result : EvidenceItem) : Z :=
  let score := 0 in
  let snippet_len := Py.len (snippet result) in
  let score :=
    if 100 <=? snippet_len then score + 2
    else if 50 <=? snippet_len then score + 1
    else score in
  let matching_words := matching claim_words (Py.lower (snippet result)) in
  let score := if 0 <? matching_words then score + matching_words * 2 else score in
  let title_matches := matching claim_words (Py.lower (title result)) in
  let score := if 0 <? title_matches then score + title_matches * 3 else score in
  score.

(** The four locals the loop of [_filter_search_results] updates. *)
Record FilterState := mkFilter {
  filtered : list EvidenceItem;
  skipped_short : Z;
  skipped_no_url : Z;
  skipped_no_match : Z
}.

(** One iteration of [for result in results]. *)
Definition filter_step (claim_words : list string)
    (st : FilterState) (result : EvidenceItem) : FilterState :=
  if Py.len (Py.strip (snippet result)) <? MIN_SNIPPET_LENGTH then
    mkFilter (filtered st) (skipped_short st + 1) (skipped_no_url st) (skipped_no_match st)
  else if Py.is_empty (url result)
          || (Py.len (Py.strip (url result)) <? MIN_URL_LENGTH) then
    mkFilter (filtered st) (skipped_short st) (skipped_no_url st + 1) (skipped_no_match st)
  else
    let score := relevance claim_words result in
    if score =? 0 then
      mkFilter (filtered st) (skipped_short st) (skipped_no_url st) (skipped_no_match st + 1)
    else
      mkFilter (filtered st ++ [set_relevance_score result score])
               (skipped_short st) (skipped_no_url st) (skipped_no_match st).

Definition filter_loop (claim_words : list string) (results : list EvidenceItem)
  : FilterState :=
  fold_left (filter_step claim_words) results (mkFilter [] 0 0 0).

(** [l.sort(key=key, reverse=True)]: Python's sort is stable, also with
    [reverse=True]; a stable insertion sort by descending key. *)
Section Sort.
Context {A : Type} (key : A -> Z).

Fixpoint insert_desc (x : A) (l : list A) : list A :=
  match l with
  | [] => [x]
  | y :: l' => if key y <=? key x then x :: l else y :: insert_desc x l'
  end.

Fixpoint sort_desc (l : list A) : list A :=
  match l with
  | [] => []
  | x :: l' => insert_desc x (sort_desc l')
  end.

(** descending order of the keys *)
Definition desc (a b : A) : Prop := key b <= key a.
End Sort.

Definition _filter_search_results
    (results : list EvidenceItem) (claim : string) (max_results : Z)
  : list EvidenceItem :=
  match results with
  | [] => []
  | _ =>
      let claim_lower := Py.lower claim in
      let claim_words := Py.set (Py.split claim_lower) in
      let st := filter_loop claim_words results in
      let sorted := sort_desc get_relevance_score (filtered st) in
      let popped := map pop_relevance_score sorted in
      Py.slice_to popped max_results
  end.

(** ** Exceptions *)

Inductive exn :=
| JSONDecodeError
| AttributeError
| Exception (msg : string).

Inductive outcome (A : Type) :=
| Returns (a : A)
| Raises (e : exn).
Arguments Returns {A} a.
Arguments Raises {A} e.

Definition bind {A B} (m : outcome A) (k : A -> outcome B) : outcome B :=
  match m with
  | Returns a => k a
  | Raises e => Raises e
  end.

Notation "x <- m ;; k" := (bind m (fun x => k))
  (at level 61, m at next level, right associativity).

(** ** Python values and [json.loads] *)

(** A [float] is kept as the decimal number the text denotes
    ([-1]^negative * mantissa * 10^exponent), before rounding to a double. *)
Inductive pyfloat :=
| FDec (negative : bool) (mantissa : Z) (exponent : Z)
| FNaN
| FInf
| FNegInf.

(** What [json.loads] can return; a [dict] keeps its keys in insertion
    order, each key once. *)
#[warnings="-register-all"] Inductive pyval :=
| PyNone
| PyBool (b : bool)
| PyInt (n : Z)
| PyFloat (f : pyfloat)
| PyStr (s : string)
| PyList (l : list pyval)
| PyDict (d : list (string * pyval)).

(** [d[k] = v] *)
Fixpoint dict_set (d : list (string * pyval)) (k : string) (v : pyval)
  : list (string * pyval) :=
  match d with
  | [] => [(k, v)]
  | (k', v') :: d' =>
      if String.eqb k' k then (k', v) :: d' else (k', v') :: dict_set d' k v
  end.

(** [d.get(k)], [None] of Rocq standing for a missing key *)
Fixpoint dict_lookup (d : list (string * pyval)) (k : string) : option pyval :=
  match d with
  | [] => None
  | (k', v') :: d' => if String.eqb k' k then Some v' else dict_lookup d' k
  end.

(** [x.get(k, default)]: only a [dict] has the attribute [get]. *)
Definition get (x : pyval) (k : string) (default : pyval) : outcome pyval :=
  match x with
  | PyDict d =>
      Returns (match dict_lookup d k with Some v => v | None => default end)
  | _ => Raises AttributeError
  end.

(** A double is zero when the decimal it was read from rounds to zero,
    that is when it is at most 2^-1075 (ties go to the even neighbour 0). *)
Definition float_nonzero (f : pyfloat) : bool :=
  match f with
  | FDec _ m e =>
      if m =? 0 then false
      else if 0 <=? e then true
      else 10 ^ (- e) <? m * 2 ^ 1075
  | _ => true
  end.

(** [bool(x)] *)
Definition truthy (x : pyval) : bool :=
  match x with
  | PyNone => false
  | PyBool b => b
  | PyInt n => negb (n =? 0)
  | PyFloat f => float_nonzero f
  | PyStr s => negb (Py.is_empty s)
  | PyList l => match l with [] => false | _ => true end
  | PyDict d => match d with [] => false | _ => true end
  end.

Module Json.

(** The result of scanning a prefix of the text. *)
Inductive scan (A : Type) :=
| Scanned (a : A) (rest : string)
| DecodeError
| OutOfFuel.
Arguments Scanned {A} a rest.
Arguments DecodeError {A}.
Arguments OutOfFuel {A}.

(** [WHITESPACE = [ \t\n\r]*] *)
Definition is_ws (c : ascii) : bool := Py.char_in c (String " " (String "009" (String "010" (String "013" "")))).

Fixpoint skip_ws (s : string) : string :=
  match s with
  | EmptyString => EmptyString
  | String c s' => if is_ws c then skip_ws s' else s
  end.

Definition hex_value (c : ascii) : option Z :=
  let n := Z.of_nat (nat_of_ascii c) in
  if (48 <=? n) && (n <=? 57) then Some (n - 48)
  else if (65 <=? n) && (n <=? 70) then Some (n - 55)
  else if (97 <=? n) && (n <=? 102) then Some (n - 87)
  else None.

(** the four hexadecimal digits of a [\uXXXX] escape *)
Definition decode_uXXXX (s : string) : option (Z * string) :=
  match s with
  | String a (String b (String c (String d rest))) =>
      match hex_value a, hex_value b, hex_value c, hex_value d with
      | Some x3, Some x2, Some x1, Some x0 =>
          Some (((x3 * 16 + x2) * 16 + x1) * 16 + x0, rest)
      | _, _, _, _ => None
      end
  | _ => None
  end.

(** [chr(uni)]; a code point outside the 8-bit alphabet of the model is
    rendered as one opaque character. *)
Definition chr (uni : Z) : ascii :=
  if uni <? 256 then ascii_of_N (Z.to_N uni) else "?"%char.

(** the escapes of [BACKSLASH] *)
Definition backslash (c : ascii) : option ascii :=
  if Ascii.eqb c dquote then Some dquote
  else if Ascii.eqb c "\" then Some "\"%char
  else if Ascii.eqb c "/" then Some "/"%char
  else if Ascii.eqb c "b" then Some "008"%char
  else if Ascii.eqb c "f" then Some "012"%char
  else if Ascii.eqb c "n" then Some "010"%char
  else if Ascii.eqb c "r" then Some "013"%char
  else if Ascii.eqb c "t" then Some "009"%char
  else None.

(** [scanstring(s, end, strict=True)], from just after the opening
    quote: the decoded content and the text after the closing quote. *)
Fixpoint scanstring (s : string) : scan string :=
  match s with
  | EmptyString => DecodeError
  | String c s' =>
      if Ascii.eqb c dquote then Scanned "" s'
      else if Ascii.eqb c "\" then
        match s' with
        | EmptyString => DecodeError
        | String esc s'' =>
            if Ascii.eqb esc "u" then
              match s'' with
              | String a (String b (String c0 (String d rest))) =>
                  match decode_uXXXX s'' with
                  | Some (uni, _) =>
                      let single :=
                        match scanstring rest with
                        | Scanned t r => Scanned (String (chr uni) t) r
                        | e => e
                        end in
                      if (55296 <=? uni) && (uni <=? 56319) then
                        match rest with
                        | String b1 (String u1 (String a2 (String b2 (String c2 (String d2 rest2))))) =>
                            if Ascii.eqb b1 "\" && Ascii.eqb u1 "u" then
                              match decode_uXXXX (String a2 (String b2 (String c2 (String d2 rest2)))) with
                              | Some (uni2, _) =>
                                  if (56320 <=? uni2) && (uni2 <=? 57343) then
                                    match scanstring rest2 with
                                    | Scanned t r =>
                                        Scanned (String (chr (65536 + ((uni - 55296) * 1024 + (uni2 - 56320)))) t) r
                                    | e => e
                                    end
                                  else single
                              | None => DecodeError
                              end
                            else single
                        | _ => single
                        end
                      else single
                  | None => DecodeError
                  end
              | _ => DecodeError
              end
            else
              match backslash esc with
              | Some ch =>
                  match scanstring s'' with
                  | Scanned t r => Scanned (String ch t) r
                  | e => e
                  end
              | None => DecodeError
              end
        end
      else if (nat_of_ascii c <? 32)%nat then DecodeError
      else
        match scanstring s' with
        | Scanned t r => Scanned (String c t) r
        | e => e
        end
  end.

(** the longest run of decimal digits at the head of the text *)
Fixpoint take_digits (s : string) : string * string :=
  match s with
  | String c s' =>
      if Py.isdigit c
      then let (ds, r) := take_digits s' in (String c ds, r)
      else (EmptyString, s)
  | EmptyString => (EmptyString, EmptyString)
  end.

Fixpoint digits_value (acc : Z) (ds : string) : Z :=
  match ds with
  | EmptyString => acc
  | String c ds' => digits_value (acc * 10 + (Z.of_nat (nat_of_ascii c) - 48)) ds'
  end.

(** the integer part: a lone 0, or a non-zero digit and more digits *)
Definition match_integer (s : string) : option (string * string) :=
  match s with
  | String c s' =>
      if Ascii.eqb c "0" then Some ("0", s')
      else if Py.isdigit c then
        let (ds, r) := take_digits s' in Some (String c ds, r)
      else None
  | EmptyString => None
  end.

(** the fraction [(\.\d+)?] *)
Definition match_frac (s : string) : string * string :=
  match s with
  | String c s' =>
      if Ascii.eqb c "." then
        let (ds, r) := take_digits s' in
        if Py.is_empty ds then (EmptyString, s) else (ds, r)
      else (EmptyString, s)
  | EmptyString => (EmptyString, s)
  end.

(** the exponent [([eE][-+]?\d+)?]: whether it is present, its value,
    and the remaining text *)
Definition match_exp (s : string) : option Z * string :=
  match s with
  | String c s' =>
      if Ascii.eqb c "e" || Ascii.eqb c "E" then
        let '(neg, s'') :=
          match s' with
          | String sg t =>
              if Ascii.eqb sg "-" then (true, t)
              else if Ascii.eqb sg "+" then (false, t)
              else (false, s')
          | EmptyString => (false, s')
          end in
        let (ds, r) := take_digits s'' in
        if Py.is_empty ds then (None, s)
        else (Some (if neg then - digits_value 0 ds else digits_value 0 ds), r)
      else (None, s)
  | EmptyString => (None, s)
  end.

(** [NUMBER_RE.match]: an [int] when neither fraction nor exponent is
    present, a [float] otherwise *)
Definition match_number (s : string) : option (pyval * string) :=
  let '(neg, s1) :=
    match s with
    | String c t => if Ascii.eqb c "-" then (true, t) else (false, s)
    | EmptyString => (false, s)
    end in
  match match_integer s1 with
  | None => None
  | Some (int_ds, s2) =>
      let (frac_ds, s3) := match_frac s2 in
      let (exp, s4) := match_exp s3 in
      match Py.is_empty frac_ds, exp with
      | true, None =>
          let n := digits_value 0 int_ds in
          Some (PyInt (if neg then - n else n), s4)
      | _, _ =>
          let m := digits_value 0 (int_ds ++ frac_ds) in
          let e := match exp with Some e => e | None => 0 end in
          Some (PyFloat (FDec neg m (e - Py.len frac_ds)), s4)
      end
  end.

(** [s[idx:idx+len(lit)] == lit], with the text that follows *)
Fixpoint literal (lit s : string) : option string :=
  match lit, s with
  | EmptyString, _ => Some s
  | String a lit', String b s' => if Ascii.eqb a b then literal lit' s' else None
  | String _ _, EmptyString => None
  end.

(** [scan_once], [JSONArray] and [JSONObject]; every recursive call
    spends one unit of fuel. *)
Fixpoint scan_once (fuel : nat) (s : string) : scan pyval :=
  match fuel with
  | O => OutOfFuel
  | S fuel' =>
      match s with
      | EmptyString => DecodeError
      | String c s' =>
          if Ascii.eqb c dquote then
            match scanstring s' with
            | Scanned t r => Scanned (PyStr t) r
            | DecodeError => DecodeError
            | OutOfFuel => OutOfFuel
            end
          else if Ascii.eqb c "{" then
            match skip_ws s' with
            | String q s'' =>
                if Ascii.eqb q "}" then Scanned (PyDict []) s''
                else if Ascii.eqb q dquote then object_loop fuel' s'' []
                else DecodeError
            | EmptyString => DecodeError
            end
          else if Ascii.eqb c "[" then
            match skip_ws s' with
            | String q s'' =>
                if Ascii.eqb q "]" then Scanned (PyList []) s''
                else array_loop fuel' (skip_ws s') []
            | EmptyString => DecodeError
            end
          else
            match literal "null" s, literal "true" s, literal "false" s with
            | Some r, _, _ => Scanned PyNone r
            | _, Some r, _ => Scanned (PyBool true) r
            | _, _, Some r => Scanned (PyBool false) r
            | None, None, None =>
                match match_number s with
                | Some (v, r) => Scanned v r
                | None =>
                    match literal "NaN" s, literal "Infinity" s, literal "-Infinity" s with
                    | Some r, _, _ => Scanned (PyFloat FNaN) r
                    | _, Some r, _ => Scanned (PyFloat FInf) r
                    | _, _, Some r => Scanned (PyFloat FNegInf) r
                    | None, None, None => DecodeError
                    end
                end
            end
      end
  end

(** the loop of [JSONArray], at the start of a value *)
with array_loop (fuel : nat) (s : string) (values : list pyval) : scan pyval :=
  match fuel with
  | O => OutOfFuel
  | S fuel' =>
      match scan_once fuel' s with
      | Scanned value r =>
          match skip_ws r with
          | String c r' =>
              if Ascii.eqb c "]" then Scanned (PyList (values ++ [value])) r'
              else if Ascii.eqb c "," then array_loop fuel' (skip_ws r') (values ++ [value])
              else DecodeError
          | EmptyString => DecodeError
          end
      | DecodeError => DecodeError
      | OutOfFuel => OutOfFuel
      end
  end

(** the loop of [JSONObject], just after the opening quote of a key *)
with object_loop (fuel : nat) (s : string) (pairs : list (string * pyval)) : scan pyval :=
  match fuel with
  | O => OutOfFuel
  | S fuel' =>
      match scanstring s with
      | Scanned key r =>
          match skip_ws r with
          | String c r' =>
              if Ascii.eqb c ":" then
                match scan_once fuel' (skip_ws r') with
                | Scanned value r'' =>
                    match skip_ws r'' with
                    | String c' r3 =>
                        if Ascii.eqb c' "}" then Scanned (PyDict (dict_set pairs key value)) r3
                        else if Ascii.eqb c' "," then
                          match skip_ws r3 with
                          | String q r4 =>
                              if Ascii.eqb q dquote then object_loop fuel' r4 (dict_set pairs key value)
                              else DecodeError
                          | EmptyString => DecodeError
                          end
                        else DecodeError
                    | EmptyString => DecodeError
                    end
                | DecodeError => DecodeError
                | OutOfFuel => OutOfFuel
                end
              else DecodeError
          | EmptyString => DecodeError
          end
      | DecodeError => DecodeError
      | OutOfFuel => OutOfFuel
      end
  end.

(** fuel that no text exhausts (lemma [loads_fuel_is_enough] below) *)
Definition enough_fuel (s : string) : nat := 2 * String.length s + 2.

(** [json.loads(s)]: one value between optional whitespace, or
    [JSONDecodeError].  Limits of the interpreter (recursion depth,
    integer digits) are not part of the model. *)
Definition loads (s : string) : outcome pyval :=
  match scan_once (enough_fuel s) (skip_ws s) with
  | Scanned v rest =>
      if Py.is_empty (skip_ws rest) then Returns v else Raises JSONDecodeError
  | _ => Raises JSONDecodeError
  end.

End Json.

(** ** The regular expressions of the service

    Each [re] call of the source is written out as the scanner it
    denotes; [skip] counts the characters of a match still to be passed. *)

Module Re.

(** the length of the longest prefix whose characters satisfy [p] *)
Fixpoint run (p : ascii -> bool) (s : string) : nat :=
  match s with
  | String c s' => if p c then S (run p s') else O
  | EmptyString => O
  end.

Fixpoint drop (n : nat) (s : string) : string :=
  match n, s with
  | S n', String _ s' => drop n' s'
  | _, _ => s
  end.

Definition is_newline (c : ascii) : bool := Ascii.eqb c "010".

Definition fence : string := "```".

(** the length of a match of [```[a-z]*\s*] at the head of [s] *)
Definition open_fence_len (s : string) : option nat :=
  if Py.startswith fence s then
    let letters := run Py.islower (drop 3 s) in
    let spaces := run Py.isspace (drop (3 + letters) s) in
    Some (3 + letters + spaces)%nat
  else None.

(** [re.sub(r'^```[a-z]*\s*', '', s, flags=re.MULTILINE)]; [bol] tells
    whether the position is the start of the text or follows a newline. *)
Fixpoint sub_open_fence (bol : bool) (skip : nat) (s : string) : string :=
  match s with
  | EmptyString => EmptyString
  | String c s' =>
      match skip with
      | S k => sub_open_fence (is_newline c) k s'
      | O =>
          match (if bol then open_fence_len s else None) with
          | Some n => sub_open_fence (is_newline c) (n - 1) s'
          | None => String c (sub_open_fence (is_newline c) 0 s')
          end
      end
  end.

(** the index just after the last newline among the first [n]
    characters of [s], if there is one *)
Fixpoint last_newline (n : nat) (s : string) : option nat :=
  match n, s with
  | S n', String c s' =>
      match last_newline n' s' with
      | Some k => Some (S k)
      | None => if is_newline c then Some 1%nat else None
      end
  | _, _ => None
  end.

(** the length of a match of [\s*```\s*$] at the head of [s]: the
    trailing blanks run to the end of the text, or else stop before
    their last newline *)
Definition close_fence_len (s : string) : option nat :=
  let lead := run Py.isspace s in
  if Py.startswith fence (drop lead s) then
    let tail := drop (lead + 3) s in
    let spaces := run Py.isspace tail in
    if Py.is_empty (drop spaces tail) then Some (lead + 3 + spaces)%nat
    else
      match last_newline spaces tail with
      | Some k => Some (lead + 3 + (k - 1))%nat
      | None => None
      end
  else None.

(** [re.sub(r'\s*```\s*$', '', s, flags=re.MULTILINE)] *)
Fixpoint sub_close_fence (skip : nat) (s : string) : string :=
  match s with
  | EmptyString => EmptyString
  | String c s' =>
      match skip with
      | S k => sub_close_fence k s'
      | O =>
          match close_fence_len s with
          | Some n => sub_close_fence (n - 1) s'
          | None => String c (sub_close_fence 0 s')
          end
      end
  end.

(** The states of a match of [[A-Z][a-z]+(?:\s+[A-Z][a-z]+)*\b]. *)
Inductive noun_state :=
| WantUpper      (* at the start of a word *)
| WantLower      (* after the capital, one lower-case letter is due *)
| InLower        (* inside the lower-case run of a word *)
| InSpace.       (* inside the blanks after a word *)

(** The length of the match at the head of the text.  [pos] characters
    are read so far; [best] is the longest prefix read that ends a word
    at a word boundary, where the match backtracks to when the chain of
    words cannot go on. *)
Fixpoint noun_len (st : noun_state) (pos : nat) (best : option nat) (s : string)
  : option nat :=
  match s with
  | EmptyString =>
      match st with
      | InLower => Some pos
      | _ => best
      end
  | String c s' =>
      match st with
      | WantUpper => if Py.isupper c then noun_len WantLower (S pos) best s' else best
      | WantLower => if Py.islower c then noun_len InLower (S pos) best s' else best
      | InLower =>
          if Py.islower c then noun_len InLower (S pos) best s'
          else if Py.isspace c then noun_len InSpace (S pos) (Some pos) s'
          else if Py.isword c then best
          else Some pos
      | InSpace =>
          if Py.isspace c then noun_len InSpace (S pos) best s'
          else if Py.isupper c then noun_len WantLower (S pos) best s'
          else best
      end
  end.

(** [re.findall(r'\b[A-Z][a-z]+(?:\s+[A-Z][a-z]+)*\b', s)]; [prev_word]
    tells whether the previous character is a word character. *)
Fixpoint findall_proper_nouns (prev_word : bool) (skip : nat) (s : string)
  : list string :=
  match s with
  | EmptyString => []
  | String c s' =>
      match skip with
      | S k => findall_proper_nouns (Py.isword c) k s'
      | O =>
          match (if prev_word then None else noun_len WantUpper 0 None s) with
          | Some n => Py.prefix_of n s :: findall_proper_nouns (Py.isword c) (n - 1) s'
          | None => findall_proper_nouns (Py.isword c) 0 s'
          end
      end
  end.

(** a match of [(2024|2025|2026)\b] at the head of the text *)
Definition year_at (s : string) : option string :=
  let y := Py.prefix_of 4 s in
  if (String.eqb y "2024" || String.eqb y "2025" || String.eqb y "2026")
     && match drop 4 s with
        | String c _ => negb (Py.isword c)
        | EmptyString => true
        end
  then Some y else None.

(** [re.findall(r'\b(2024|2025|2026)\b', s)] *)
Fixpoint findall_years (prev_word : bool) (skip : nat) (s : string) : list string :=
  match s with
  | EmptyString => []
  | String c s' =>
      match skip with
      | S k => findall_years (Py.isword c) k s'
      | O =>
          match (if prev_word then None else year_at s) with
          | Some y => y :: findall_years (Py.isword c) 3 s'
          | None => findall_years (Py.isword c) 0 s'
          end
      end
  end.

End Re.

(** ** More of Python's [str] and [list], by index *)

(** [s.find(c)] for one character: the first index, or -1 *)
Fixpoint find (c : ascii) (s : string) : Z :=
  match s with
  | EmptyString => -1
  | String d s' =>
      if Ascii.eqb c d then 0
      else let i := find c s' in if i =? -1 then -1 else i + 1
  end.

(** [s.rfind(c)] for one character: the last index, or -1 *)
Fixpoint rfind (c : ascii) (s : string) : Z :=
  match s with
  | EmptyString => -1
  | String d s' =>
      let i := rfind c s' in
      if negb (i =? -1) then i + 1
      else if Ascii.eqb c d then 0 else -1
  end.

(** [s[a:b]] for [0 <= a <= b] *)
Definition slice (s : string) (a b : Z) : string :=
  Py.prefix_of (Z.to_nat (b - a)) (Re.drop (Z.to_nat a) s).

(** [''.join(l)] *)
Definition join (l : list string) : string := fold_right append "" l.

(** ** [_clean_json_response] *)

Definition _clean_json_response (response_text : string) : string :=
  let cleaned := Py.strip response_text in
  if Py.startswith "```" cleaned then
    let cleaned := Re.sub_open_fence true 0 cleaned in
    let cleaned := Re.sub_close_fence 0 cleaned in
    Py.strip cleaned
  else cleaned.

(** ** Brace-balanced extraction (strategy 2 of the parser) *)

(** The loop [for i in range(first_brace, len(cleaned))] over the text
    from index [i] on: [Some end_pos] when the loop breaks, [None] when
    it runs to the end of the text and [end_pos] keeps its initial value. *)
Fixpoint balance_loop (s : string) (i : Z) (brace_count : Z)
    (in_string escape_next : bool) : option Z :=
  match s with
  | EmptyString => None
  | String char s' =>
      if escape_next then balance_loop s' (i + 1) brace_count in_string false
      else if Ascii.eqb char "\" then balance_loop s' (i + 1) brace_count in_string true
      else if Ascii.eqb char dquote && negb escape_next then
        balance_loop s' (i + 1) brace_count (negb in_string) escape_next
      else if negb in_string then
        if Ascii.eqb char "{" then
          balance_loop s' (i + 1) (brace_count + 1) in_string escape_next
        else if Ascii.eqb char "}" then
          let brace_count := brace_count - 1 in
          if brace_count =? 0 then Some (i + 1)
          else balance_loop s' (i + 1) brace_count in_string escape_next
        else balance_loop s' (i + 1) brace_count in_string escape_next
      else balance_loop s' (i + 1) brace_count in_string escape_next
  end.

(** Lines 453-484: what is handed to the second [json.loads]. *)
Definition extract_balanced (cleaned : string) : string :=
  let first_brace := find "{" cleaned in
  if negb (first_brace =? -1) then
    let end_pos :=
      match balance_loop (Re.drop (Z.to_nat first_brace) cleaned)
                         first_brace 0 false false with
      | Some e => e
      | None => first_brace
      end in
    if first_brace <? end_pos then slice cleaned first_brace end_pos
    else
      let last_brace := rfind "}" cleaned in
      if first_brace <? last_brace then slice cleaned first_brace (last_brace + 1)
      else cleaned
  else cleaned.

(** ** [_repair_json_strings] *)

(** [result[j] in ' \t\n\r'] for an element of [result] *)
Definition is_blank_piece (piece : string) : bool :=
  Py.contains piece (String " " (String "009" (String "010" (String "013" "")))).

Fixpoint drop_blank_pieces (rev_result : list string) : list string :=
  match rev_result with
  | piece :: rest => if is_blank_piece piece then drop_blank_pieces rest else rev_result
  | [] => []
  end.

(** The look-back at a quote: [j] walks back over the blank pieces of
    [result]; when a piece is left, [lookback] joins the four pieces
    [result[max(0, j-3) : j+1]]. *)
Definition is_value_position (result : list string) : bool :=
  match drop_blank_pieces (rev result) with
  | [] => false
  | upto_j =>
      let lookback := join (rev (firstn 4 upto_j)) in
      Py.contains ":" lookback || Py.startswith "," (Py.strip lookback)
  end.

(** The [while i < len(json_str)] loop over the text still to read. *)
Fixpoint repair_loop (s : string) (result : list string)
    (in_string escape_next : bool) : list string :=
  match s with
  | EmptyString => result
  | String char s' =>
      if escape_next then
        repair_loop s' (result ++ [String char ""]) in_string false
      else if Ascii.eqb char "\" then
        repair_loop s' (result ++ [String char ""]) in_string true
      else if Ascii.eqb char dquote then
        let is_value := is_value_position result in
        if in_string && is_value then
          repair_loop s' (result ++ [String "\" (String dquote "")]) in_string escape_next
        else
          repair_loop s' (result ++ [String char ""]) (negb in_string) escape_next
      else repair_loop s' (result ++ [String char ""]) in_string escape_next
  end.

Definition _repair_json_strings (json_str : string) : string :=
  join (repair_loop json_str [] false false).

(** ** The service object, verdicts and sources *)

(** The attributes of [BaseLLMService] the veracity pipeline uses. *)
Record BaseLLMService := mkService {
  enabled : bool;
  web_search_enabled : bool;
  _current_search_results : list EvidenceItem
}.

Definition set_current_search_results (self : BaseLLMService)
    (results : list EvidenceItem) : BaseLLMService :=
  mkService (enabled self) (web_search_enabled self) results.

(** A source of a verdict: the dict with the keys title, url, snippet. *)
Record Source := mkSource {
  source_title : pyval;
  source_url : pyval;
  source_snippet : pyval
}.

(** The 4-tuple [(status, justification, verification_method, sources)]. *)
Record Verdict := mkVerdict {
  status : pyval;
  justification : pyval;
  verification_method : pyval;
  sources : list Source
}.

(** ** The source reconciler: [_auto_map_sources_from_results] *)

(** The dict appended to [mapped_sources] for one search result. *)
Definition mapped_source (result : EvidenceItem) : Source :=
  mkSource (PyStr (title result)) (PyStr (url result))
           (PyStr (Py.prefix_of 200 (snippet result))).

(** [set(word for word in justification_lower.split() if len(word) > 4)] *)
Definition keywords (justification_lower : string) : list string :=
  Py.set (filter (fun word => 4 <? Py.len word) (Py.split justification_lower)).

(** [sum(1 for word in justification_words
          if word in snippet_lower or word in title_lower)] *)
Definition overlap (justification_words : list string) (result : EvidenceItem) : Z :=
  let snippet_lower := Py.lower (snippet result) in
  let title_lower := Py.lower (title result) in
  Py.count (fun word => Py.contains word snippet_lower || Py.contains word title_lower)
           justification_words.

Definition is_nil {A} (l : list A) : bool :=
  match l with [] => true | _ => false end.

Definition _auto_map_sources_from_results (self : BaseLLMService)
    (justification : pyval) : outcome (list Source) :=
  if is_nil (_current_search_results self) then Returns []
  else
    match justification with
    | PyStr justification =>
        let justification_lower := Py.lower justification in
        let justification_words := keywords justification_lower in
        let mapped_sources :=
          map mapped_source
              (filter (fun result => MIN_RELEVANCE_SCORE <=? overlap justification_words result)
                      (_current_search_results self)) in
        if is_nil mapped_sources && negb (is_nil (_current_search_results self)) then
          Returns (mapped_sources ++
                   map mapped_source
                       (Py.slice_to (_current_search_results self) AUTO_MAP_FALLBACK_SOURCES))%list
        else Returns mapped_sources
    | _ => Raises AttributeError   (* only a str has the method lower *)
    end.

(** ** The verdict parser: [_parse_veracity_response] *)

(** The loop over the reported [sources]: an entry is kept when it is a
    dict whose [url] is truthy, reduced to its three keys. *)
Fixpoint valid_sources (sources : list pyval) : list Source :=
  match sources with
  | [] => []
  | s :: rest =>
      match s with
      | PyDict d =>
          if truthy (match dict_lookup d "url" with Some u => u | None => PyNone end)
          then mkSource
                 (match dict_lookup d "title" with Some v => v | None => PyStr "" end)
                 (match dict_lookup d "url" with Some v => v | None => PyStr "" end)
                 (match dict_lookup d "snippet" with Some v => v | None => PyStr "" end)
               :: valid_sources rest
          else valid_sources rest
      | _ => valid_sources rest
      end
  end.

(** What the model's answer reports as its sources (lines 504-517). *)
Definition reported_sources (sources : pyval) : list Source :=
  match sources with
  | PyList l => valid_sources l
  | _ => []
  end.

Definition valid_statuses : list string :=
  ["Factually Correct"; "Untruth"; "Misleading"; "Unverifiable"].

(** [status not in valid_statuses] *)
Definition is_valid_status (status : pyval) : bool :=
  match status with
  | PyStr s => existsb (String.eqb s) valid_statuses
  | _ => false
  end.

(** The body of the second [try] block (lines 501-528). *)
Definition extract_fields (self : BaseLLMService) (data : pyval) : outcome Verdict :=
  status <- get data "status" (PyStr "Unverifiable") ;;
  justification <- get data "justification" (PyStr "No analysis available") ;;
  verification_method <- get data "verification_method" (PyStr "Web search") ;;
  sources <- get data "sources" (PyList []) ;;
  let sources := reported_sources sources in
  sources <-
    (if is_nil sources && negb (is_nil (_current_search_results self))
     then _auto_map_sources_from_results self justification
     else Returns sources) ;;
  let status := if is_valid_status status then status else PyStr "Unverifiable" in
  Returns (mkVerdict status justification verification_method sources).

Definition parse_failure : Verdict :=
  mkVerdict (PyStr "Unverifiable") (PyStr "Invalid JSON response from analysis")
            (PyStr "Parse error") [].

Definition processing_failure : Verdict :=
  mkVerdict (PyStr "Unverifiable") (PyStr "Error processing analysis")
            (PyStr "Parse error") [].

(** The first part of the parser (lines 445-498): the three strategies.
    [inl data] is the decoded value, [inr v] the verdict the innermost
    handler returns at once. *)
Definition decode_response (response_text : string) : outcome (pyval + Verdict) :=
  match Json.loads response_text with
  | Returns data => Returns (inl data)
  | Raises JSONDecodeError =>
      let cleaned := _clean_json_response response_text in
      let cleaned := extract_balanced cleaned in
      match Json.loads cleaned with
      | Returns data => Returns (inl data)
      | Raises JSONDecodeError =>
          match Json.loads (_repair_json_strings cleaned) with
          | Returns data => Returns (inl data)
          | Raises _ => Returns (inr parse_failure)
          end
      | Raises e => Raises e
      end
  | Raises e => Raises e
  end.

Definition _parse_veracity_response (self : BaseLLMService) (response_text : string)
  : outcome Verdict :=
  decoded <- decode_response response_text ;;
  match decoded with
  | inr failure => Returns failure
  | inl data =>
      match extract_fields self data with
      | Returns verdict => Returns verdict
      | Raises _ => Returns processing_failure
      end
  end.

(** ** The query expander: [_extract_all_search_queries] *)

(** [any(t in claim_lower for t in triggers)] *)
Definition any_in (triggers : list string) (claim_lower : string) : bool :=
  existsb (fun t => Py.contains t claim_lower) triggers.

(** What one iteration of [for name in proper_nouns] appends. *)
Definition name_queries (claim_lower language name : string) : list string :=
  if 3 <? Py.len name then
    name ::
    (if String.eqb language "de" then
       (if any_in ["bundeskanzler"; "kanzler"] claim_lower
        then [(name ++ " Bundeskanzler Deutschland")%string; "Bundeskanzler Deutschland aktuell"]
        else []) ++
       (if any_in ["buch"; "autobiografie"; "biografie"] claim_lower
        then [(name ++ " Buch Autobiografie")%string; (name ++ " Buch 2024 2025")%string]
        else []) ++
       (if Py.contains "merkel" (Py.lower name)
        then ["Angela Merkel Autobiografie Freiheit"]
        else [])
     else
       (if Py.contains "chancellor" claim_lower
        then [(name ++ " Chancellor Germany")%string; "Germany Chancellor current"]
        else []) ++
       (if any_in ["book"; "autobiography"; "biography"] claim_lower
        then [(name ++ " book autobiography")%string]
        else []))%list
  else [].

Definition merz_queries (claim_lower language : string) : list string :=
  if String.eqb language "de" then
    if Py.contains "merz" claim_lower
    then ["Friedrich Merz Bundeskanzler"; "Deutschland Bundeskanzler 2025"] else []
  else
    if Py.contains "merz" claim_lower
    then ["Friedrich Merz Chancellor"; "Germany Chancellor 2025"] else [].

Definition date_query (language date : string) : string :=
  if String.eqb language "de" then "Deutschland Politik " ++ date
  else "Germany politics " ++ date.

(** [q in seen] *)
Definition mem (q : string) (seen : list string) : bool :=
  existsb (String.eqb q) seen.

(** The final loop: first occurrences only, and only queries longer
    than 2 characters. *)
Fixpoint unique_loop (queries seen : list string) : list string :=
  match queries with
  | [] => []
  | q :: rest =>
      if negb (mem q seen) && (2 <? Py.len q)
      then q :: unique_loop rest (q :: seen)
      else unique_loop rest seen
  end.

(** The list [queries] before the final loop. *)
Definition derived_queries (claim language : string) : list string :=
  let claim_lower := Py.lower claim in
  let proper_nouns := Re.findall_proper_nouns false 0 claim in
  let date_patterns := Re.findall_years false 0 claim in
  (flat_map (name_queries claim_lower language) proper_nouns
   ++ merz_queries claim_lower language
   ++ map (date_query language) date_patterns)%list.

Definition _extract_all_search_queries (claim language : string) : list string :=
  unique_loop (derived_queries claim language) [].

(** ** The world outside the service *)

(** The collaborators of the pipeline: the search provider, the clock,
    the prompt files and the language model.  [search i] is the answer to
    the [i]-th search of a call. *)
Record World := mkWorld {
  search : Z -> string -> Z -> string -> list EvidenceItem;
  strftime_now : string -> string;
  get_veracity_prompt : string -> string -> string -> string -> outcome string;
  _make_api_call : string -> bool -> outcome string
}.

(** ** The evidence gatherer: [_perform_web_searches] *)

(** Lines 177-178: the expansion, with the claim inserted at index 0. *)
Definition search_queries (claim language : string) : list string :=
  let search_queries := _extract_all_search_queries claim language in
  Py.insert search_queries 0 claim.

(** [search_queries[:MAX_SEARCH_QUERIES]], the queries that are run. *)
Definition executed_queries (claim language : string) : list string :=
  Py.slice_to (search_queries claim language) MAX_SEARCH_QUERIES.

(** [for i, query in enumerate(queries, i)]: the results of all searches. *)
Fixpoint search_loop (w : World) (language : string) (i : Z)
    (queries : list string) (all_search_results : list EvidenceItem)
  : list EvidenceItem :=
  match queries with
  | [] => all_search_results
  | query :: rest =>
      let results := search w i query RESULTS_PER_QUERY language in
      search_loop w language (i + 1) rest
        (if is_nil results then all_search_results
         else all_search_results ++ results)%list
  end.

(** Deduplicate by URL. *)
Fixpoint unique_by_url (results : list EvidenceItem) (seen_urls : list string)
  : list EvidenceItem :=
  match results with
  | [] => []
  | result :: rest =>
      if negb (mem (url result) seen_urls)
      then result :: unique_by_url rest (url result :: seen_urls)
      else unique_by_url rest seen_urls
  end.

Definition _perform_web_searches (w : World) (self : BaseLLMService)
    (claim language : string) : list EvidenceItem :=
  if negb (web_search_enabled self) then []
  else
    let all_search_results :=
      search_loop w language 1 (executed_queries claim language) [] in
    let unique_results := unique_by_url all_search_results [] in
    _filter_search_results unique_results claim MAX_FILTERED_RESULTS.

(** ** The context builder: [_build_search_context] *)

Definition newline : string := String "010" "".

(** [text.replace(a, b)] for single characters *)
Fixpoint replace_char (a b : ascii) (text : string) : string :=
  match text with
  | EmptyString => EmptyString
  | String c text' => String (if Ascii.eqb c a then b else c) (replace_char a b text')
  end.

(** The first three replacements map the plain quote to itself; the last
    two turn the guillemets (code points 187 and 171) into quotes. *)
Definition _sanitize_text (text : string) : string :=
  replace_char "171" dquote
    (replace_char "187" dquote
       (replace_char dquote dquote (replace_char dquote dquote (replace_char dquote dquote text)))).

(** [str(i)] *)
Definition str_of_Z (i : Z) : string :=
  NilZero.string_of_int (Z.to_int i).

Fixpoint format_results (i : Z) (search_results : list EvidenceItem) : list string :=
  match search_results with
  | [] => []
  | result :: rest =>
      ("[SOURCE " ++ str_of_Z i ++ "] Title: " ++ _sanitize_text (title result) ++ newline
       ++ "URL: " ++ url result ++ newline
       ++ "Snippet: " ++ _sanitize_text (snippet result))
      :: format_results (i + 1) rest
  end.

(** [sep.join(l)] *)
Fixpoint join_with (sep : string) (l : list string) : string :=
  match l with
  | [] => ""
  | [x] => x
  | x :: rest => x ++ sep ++ join_with sep rest
  end.

(** The context string, and the service with its buffer set. *)
Definition _build_search_context (self : BaseLLMService)
    (search_results : list EvidenceItem) (language : string)
  : string * BaseLLMService :=
  if negb (is_nil search_results) then
    let formatted_results := format_results 1 search_results in
    let search_context :=
      newline ++ newline ++ "=== WEB SEARCH RESULTS ===" ++ newline
      ++ join_with (newline ++ newline) formatted_results in
    let self := set_current_search_results self search_results in
    (if String.eqb language "de"
     then search_context ++ newline ++ newline
          ++ "[OK] Die obigen Web-Suchergebnisse sind deine EINZIGE Informationsquelle."
     else search_context ++ newline ++ newline
          ++ "[OK] The above web search results are your ONLY source of information.",
     self)
  else
    let self := set_current_search_results self [] in
    (if String.eqb language "de"
     then newline ++ newline ++ "[NONE] KEINE WEB-SUCHERGEBNISSE GEFUNDEN" ++ newline ++ newline
          ++ "Keine Informationen verfuegbar. Fuer ueberpruefbare Fakten bedeutet dies wahrscheinlich: FALSCH."
     else newline ++ newline ++ "[NONE] NO WEB SEARCH RESULTS FOUND" ++ newline ++ newline
          ++ "No information available. For verifiable facts, this likely means: FALSE.",
     self).

(** ** The orchestrator: [analyze_veracity] *)

Definition _get_default_veracity_analysis (claim language : string)
  : string * string * string :=
  ("Unverifiable", "Analysis not available", "Default method used").

(** [status, justification, method = self._get_default_veracity_analysis(...)]
    followed by [return status, justification, method, []] *)
Definition default_verdict (claim language : string) : Verdict :=
  let '(status, justification, method) := _get_default_veracity_analysis claim language in
  mkVerdict (PyStr status) (PyStr justification) (PyStr method) [].

(** The verdict returned and the service object as the call leaves it. *)
Definition analyze_veracity (w : World) (self : BaseLLMService)
    (claim language : string) : Verdict * BaseLLMService :=
  if negb (enabled self) then (default_verdict claim language, self)
  else
    let all_search_results := _perform_web_searches w self claim language in
    let '(search_context, self) :=
      _build_search_context self all_search_results language in
    let current_date :=
      strftime_now w (if String.eqb language "de" then "%d. %B %Y" else "%B %d, %Y") in
    match (prompt <- get_veracity_prompt w claim current_date search_context language ;;
           response <- _make_api_call w prompt true ;;
           _parse_veracity_response self response) with
    | Returns result => (result, set_current_search_results self [])
    | Raises _ => (default_verdict claim language, self)
    end.

(** ** The providers' [_make_api_call]: the retry loop *)

(** [ClaudeService._make_api_call] and [MistralService._make_api_call]
    are the same loop around the request of their client. *)
Module Provider.

(** What one request gives: the texts of the response
    ([response.content[i].text] for Claude,
    [response.choices[i].message.content] for Mistral; [None] where the
    text is missing), or the exception the client raises. *)
Definition api_answer : Type := outcome (list (option string)).

(** The client: the answer to the request of a given attempt, for the
    prompt and the [max_tokens] sent. *)
Definition Client : Type := Z -> string -> Z -> api_answer.

(** The body of the [try] block of one attempt. *)
Definition request_text (service_name : string) (client : Client)
    (attempt : Z) (prompt : string) (is_veracity : bool) : outcome string :=
  let max_tokens := if is_veracity then 4096 else 1000 in
  response <- client attempt prompt max_tokens ;;
  match response with
  | [] => Raises (Exception ("Empty response from " ++ service_name ++ " API"))
  | Some response_text :: _ =>
      if Py.is_empty response_text
      then Raises (Exception ("Empty text in " ++ service_name ++ " API response"))
      else Returns response_text
  | None :: _ =>
      Raises (Exception ("Empty text in " ++ service_name ++ " API response"))
  end.

(** [for attempt in range(max_retries)], from [attempt] on with
    [remaining] passes left.  [slept] lists the arguments of
    [time.sleep] so far.  The result [None] is Python's [None], which
    the function returns when the loop ends without a [return]. *)
Fixpoint retry_loop (service_name : string) (client : Client) (prompt : string)
    (is_veracity : bool) (max_retries : Z) (remaining : nat) (attempt : Z)
    (slept : list Z) : outcome (option string) * list Z :=
  match remaining with
  | O => (Returns None, slept)
  | S remaining' =>
      match request_text service_name client attempt prompt is_veracity with
      | Returns response_text => (Returns (Some response_text), slept)
      | Raises e =>
          if attempt <? max_retries - 1
          then retry_loop service_name client prompt is_veracity max_retries
                          remaining' (attempt + 1) (slept ++ [2 ^ attempt])%list
          else (Raises e, slept)
      end
  end.

(** The result of the call and the seconds slept, in order. *)
Definition _make_api_call (service_name : string) (client : Client)
    (prompt : string) (max_retries : Z) (is_veracity : bool)
  : outcome (option string) * list Z :=
  retry_loop service_name client prompt is_veracity max_retries
             (Z.to_nat max_retries) 0 [].

End Provider.

(** ** The search service: stripping the tags of a result *)

Module Html.

(** the length of a match of [<[^>]+>] at the head of the text *)
Definition tag_len (s : string) : option nat :=
  match s with
  | String "<" rest =>
      let i := find ">" rest in
      if 1 <=? i then Some (Z.to_nat i + 2)%nat else None
  | _ => None
  end.

(** [html_pattern.sub('', s)] for [html_pattern = re.compile(r'<[^>]+>')] *)
Fixpoint sub_tags (skip : nat) (s : string) : string :=
  match s with
  | EmptyString => EmptyString
  | String c s' =>
      match skip with
      | S k => sub_tags k s'
      | O =>
          match tag_len s with
          | Some n => sub_tags (n - 1) s'
          | None => String c (sub_tags 0 s')
          end
      end
  end.

Definition strip_tags (s : string) : string := sub_tags 0 s.

End Html.

(** ** The evaluation service: triage and the API's enums *)


Inductive VeracityStatus :=
| FACTUALLY_CORRECT | UNTRUTH | MISLEADING | UNVERIFIABLE.


Definition VeracityStatus_value (s : VeracityStatus) : string :=
  match s with
  | FACTUALLY_CORRECT => "Factually Correct"
  | UNTRUTH => "Untruth"
  | MISLEADING => "Misleading"
  | UNVERIFIABLE => "Unverifiable"
  end.








Fixpoint assoc {A} (mapping : list (string * A)) (key : string) : option A :=
  match mapping with
  | [] => None
  | (k, v) :: rest => if String.eqb k key then Some v else assoc rest key
  end.

(** [mapping.get(key, default)] for a dict with [str] keys: a key of
    another hashable type is not found, a list or a dict cannot be
    hashed. *)
Definition mapping_get {A} (mapping : list (string * A)) (key : pyval) (default : A)
  : outcome A :=
  match key with
  | PyStr s => Returns (match assoc mapping s with Some v => v | None => default end)
  | PyList _ | PyDict _ => Raises (Exception "TypeError: unhashable type")
  | _ => Returns default
  end.

Definition _map_veracity_status (status : pyval) : outcome VeracityStatus :=
  mapping_get
    [("Factually Correct", FACTUALLY_CORRECT);
     ("Untruth", UNTRUTH);
     ("Misleading", MISLEADING);
     ("Unverifiable", UNVERIFIABLE)]
    status UNVERIFIABLE.




















(** *** The scores of the nuance analysis *)
















(** ** Vocabulary of the specification *)

(** [subseq l1 l2]: [l1] is [l2] with some elements left out, the others
    in their order. *)
Inductive subseq {A : Type} : list A -> list A -> Prop :=
| subseq_nil : subseq [] []
| subseq_skip x l1 l2 : subseq l1 l2 -> subseq l1 (x :: l2)
| subseq_keep x l1 l2 : subseq l1 l2 -> subseq (x :: l1) (x :: l2).

(** The words of the claim the ranker matches against. *)
Definition claim_words_of (claim : string) : list string :=
  Py.set (Py.split (Py.lower claim)).

(** The relevance score of an item for a claim. *)
Definition score_for (claim : string) (r : EvidenceItem) : Z :=
  relevance (claim_words_of claim) r.

(** Both length gates of the ranker. *)
Definition passes_gates (r : EvidenceItem) : bool :=
  negb (Py.len (Py.strip (snippet r)) <? MIN_SNIPPET_LENGTH)
  && negb (Py.is_empty (url r) || (Py.len (Py.strip (url r)) <? MIN_URL_LENGTH)).

(** No claim word longer than 3 characters occurs in title or snippet. *)
Definition no_claim_word_match (claim : string) (r : EvidenceItem) : Prop :=
  matching (claim_words_of claim) (Py.lower (snippet r)) = 0
  /\ matching (claim_words_of claim) (Py.lower (title r)) = 0.

(** The sources the model's answer itself reports: those of the value
    the parser decodes from it. *)
Definition response_sources (response_text : string) : list Source :=
  match decode_response response_text with
  | Returns (inl data) =>
      match get data "sources" (PyList []) with
      | Returns v => reported_sources v
      | Raises _ => []
      end
  | _ => []
  end.

(** The automaton of [Re.noun_len] run over a whole text: its state at
    the end, or [None] when it stops before.  A text it reads from
    [WantUpper] to [InLower] is a run of capitalised words. *)
Fixpoint noun_run (st : Re.noun_state) (pos : nat) (best : option nat) (m : string)
  : option (Re.noun_state * nat * option nat) :=
  match m with
  | EmptyString => Some (st, pos, best)
  | String c m' =>
      match st with
      | Re.WantUpper =>
          if Py.isupper c then noun_run Re.WantLower (S pos) best m' else None
      | Re.WantLower =>
          if Py.islower c then noun_run Re.InLower (S pos) best m' else None
      | Re.InLower =>
          if Py.islower c then noun_run Re.InLower (S pos) best m'
          else if Py.isspace c then noun_run Re.InSpace (S pos) (Some pos) m'
          else None
      | Re.InSpace =>
          if Py.isspace c then noun_run Re.InSpace (S pos) best m'
          else if Py.isupper c then noun_run Re.WantLower (S pos) best m'
          else None
      end
  end.

(** [is_noun m]: the text [m] is a run of capitalised words. *)
Definition is_noun (m : string) : Prop :=
  exists b, noun_run Re.WantUpper 0 None m = Some (Re.InLower, String.length m, b).

(** Whether the last character of [m] is a word character; [pw] when
    [m] is empty. *)
Fixpoint last_is_word (pw : bool) (m : string) : bool :=
  match m with
  | EmptyString => pw
  | String c m' => last_is_word (Py.isword c) m'
  end.

(** [progresses enough bound x]: the scan [x] does not run out of fuel
    when [enough] holds, and when it scans a value fewer than [bound]
    characters are left. *)
Definition progresses {A} (enough : Prop) (bound : nat) (x : Json.scan A) : Prop :=
  (enough -> x <> Json.OutOfFuel)
  /\ forall a r, x = Json.Scanned a r -> (String.length r < bound)%nat.

(** ** Vocabulary of the further properties *)

(** The characters of a text, as a list. *)
Definition chars (s : string) : list ascii := list_ascii_of_string s.

(** Every character of the text satisfies [p]. *)
Fixpoint all_chars (p : ascii -> bool) (s : string) : bool :=
  match s with
  | EmptyString => true
  | String c s' => p c && all_chars p s'
  end.

(** [escapes_inserted s t]: the text [t] is the text [s] with a
    backslash put before some of its quotes, and nothing else changed. *)
Inductive escapes_inserted : string -> string -> Prop :=
| esc_end : escapes_inserted "" ""
| esc_keep c s t :
    escapes_inserted s t -> escapes_inserted (String c s) (String c t)
| esc_quote s t :
    escapes_inserted s t ->
    escapes_inserted (String dquote s) (String "\" (String dquote t)).




(** The two characters the sanitiser rewrites: the guillemets, code
    points 171 and 187. *)
Definition is_guillemet (c : ascii) : bool :=
  Ascii.eqb c "171" || Ascii.eqb c "187".

(** [infix_of part s]: the text [part] stands somewhere inside [s]. *)
Definition infix_of (part s : string) : Prop :=
  exists before after, s = before ++ part ++ after.


(** A claim the expander derives nothing from: no ASCII capital, no
    digit 2, and no mention of merz in its lower-case form. *)
Definition plain_claim (claim : string) : bool :=
  all_chars (fun c => negb (Py.isupper c)) claim
  && all_chars (fun c => negb (Ascii.eqb c "2")) claim
  && negb (Py.contains "merz" (Py.lower claim)).


(** The waits of the retry loop: [2 ^ attempt] seconds after each of
    [n] failed attempts, from [attempt] on. *)
Fixpoint backoff (attempt : Z) (n : nat) : list Z :=
  match n with
  | O => []
  | S n' => 2 ^ attempt :: backoff (attempt + 1) n'
  end.


(** No match of the tag pattern starts anywhere in the text. *)
Fixpoint tag_free (s : string) : bool :=
  match s with
  | EmptyString => true
  | String _ s' =>
      match Html.tag_len s with
      | None => tag_free s'
      | Some _ => false
      end
  end.


(** ** Example data *)

Definition sixty : string :=
  "Rain is expected over the weekend in most parts of the country.".

(** An off-topic result and two on-topic ones. *)
Definition weather_item : EvidenceItem :=
  mkEvidence "Weather forecast" "https://example.com/weather" sixty "" None.

Definition wall_item : EvidenceItem :=
  mkEvidence "Berlin Wall" "https://example.com/wall"
    "The Berlin Wall divided the city of Berlin from 1961 until 1989." "" None.

Definition berlin_item : EvidenceItem :=
  mkEvidence "Berlin" "https://example.com/berlin"
    "Berlin is the capital of Germany and its largest city by far." "" None.

Definition berlin_claim : string := "The Berlin Wall fell on November 9, 1989.".

(** [dq s] is [s] with each apostrophe turned into a double quote: the
    example answers below are written with apostrophes and stand for the
    text with double quotes. *)
Definition dq (s : string) : string := replace_char "'" dquote s.

(** The answer of the specification's example up to its elided tail:
    the quotes around [no] are not escaped. *)
Definition quoted_prefix : string :=
  dq "{'status':'Untruth','justification':'He said 'no' publicly'".

(** The answer of the specification's example, its elided tail filled
    in: the quotes around [no] are not escaped. *)
Definition quoted_response : string :=
  dq "{'status':'Untruth','justification':'He said 'no' publicly','verification_method':'Web search','sources':[]}".

(** The same answer with the tail left as the three dots of the example. *)
Definition quoted_response_dots : string :=
  dq "{'status':'Untruth','justification':'He said 'no' publicly',...}".

(** An answer that cites a page no search returned. *)
Definition citing_response : string :=
  dq "{'status':'Untruth','justification':'The wall fell in 1990.','verification_method':'Recall','sources':[{'title':'Report','url':'https://fabricated.example/report'}]}".

Definition plain_prompt (claim current_date search_context language : string)
  : outcome string :=
  Returns ("Claim: " ++ claim ++ newline ++ "Date: " ++ current_date ++ search_context).

(** The search provider finds nothing; the model answers [citing_response]. *)
Definition citing_world : World :=
  mkWorld (fun _ _ _ _ => []) (fun _ => "November 03, 2026") plain_prompt
          (fun _ _ => Returns citing_response).

(** The search provider finds one page; the model call fails. *)
Definition failing_world : World :=
  mkWorld (fun _ _ _ _ => [wall_item]) (fun _ => "November 03, 2026") plain_prompt
          (fun _ _ => Raises (Exception "model call failed")).


Definition ready_service : BaseLLMService := mkService true true [].


(** A client that fails twice and then answers. *)
Definition flaky_client : Provider.Client :=
  fun attempt _ _ =>
    if attempt <? 2 then Raises (Exception "overloaded")
    else Returns [Some "{}"].


(** * Properties *)

(** ** The model at work *)

Example proper_nouns_of_the_claim :
  Re.findall_proper_nouns false 0 berlin_claim = ["The Berlin Wall"; "November"].
Proof. reflexivity. Qed.

Example proper_noun_backtracks :
  Re.findall_proper_nouns false 0 "Angela MerkelX and Olaf  Scholz2 met"
  = ["Angela"; "Olaf"].
Proof. reflexivity. Qed.

Example years_need_word_boundaries :
  Re.findall_years false 0 "In 2024, x2025 and 2026_ but 2025." = ["2024"; "2025"].
Proof. reflexivity. Qed.

Example queries_of_the_claim :
  search_queries berlin_claim "en" = [berlin_claim; "The Berlin Wall"; "November"].
Proof. reflexivity. Qed.

Example fenced_answer_is_cleaned :
  _clean_json_response (String "`" (String "`" (String "`" ("json" ++ newline ++ "{}"
                        ++ newline ++ String "`" (String "`" (String "`" ""))))))
  = "{}".
Proof. reflexivity. Qed.

Example loads_object :
  Json.loads (dq "{'a': [1, 2.5, null], 'a': true}")
  = Returns (PyDict [("a", PyBool true)]).
Proof. reflexivity. Qed.

Example loads_rejects_trailing_comma :
  Json.loads "[1, 2,]" = Raises JSONDecodeError.
Proof. reflexivity. Qed.

Example answer_in_prose_is_extracted :
  _parse_veracity_response ready_service
    (dq "Here it is: {'status':'Misleading','justification':'Half true.'} Thanks")
  = Returns (mkVerdict (PyStr "Misleading") (PyStr "Half true.") (PyStr "Web search") []).
Proof. reflexivity. Qed.

(** ** Strings *)

Lemma lstrip_length s : (String.length (Py.lstrip s) <= String.length s)%nat.
Proof.
  induction s as [|c s IH]; simpl; [lia|].
  destruct (Py.isspace c); simpl; lia.
Qed.

Lemma rstrip_length s : (String.length (Py.rstrip s) <= String.length s)%nat.
Proof.
  induction s as [|c s IH]; simpl; [lia|].
  destruct (Py.isspace c && Py.is_empty (Py.rstrip s)); simpl; lia.
Qed.

Lemma strip_len s : Py.len (Py.strip s) <= Py.len s.
Proof.
  unfold Py.len, Py.strip.
  pose proof (rstrip_length (Py.lstrip s)). pose proof (lstrip_length s). lia.
Qed.

Lemma prefix_of_app m t k :
  Py.prefix_of (k + String.length m) (m ++ t) = m ++ Py.prefix_of k t.
Proof.
  induction m as [|c m IH]; simpl.
  - rewrite Nat.add_0_r. reflexivity.
  - rewrite Nat.add_succ_r. simpl. rewrite IH. reflexivity.
Qed.

Lemma append_longer (m t : string) : m = m ++ t -> t = "".
Proof.
  induction m as [|c m IH]; simpl; intros H.
  - symmetry. exact H.
  - injection H as H. auto.
Qed.

Lemma append_empty_r (m : string) : m ++ "" = m.
Proof. induction m as [|c m IH]; simpl; [|rewrite IH]; reflexivity. Qed.

Lemma count_nonneg {A} (p : A -> bool) l : 0 <= Py.count p l.
Proof. unfold Py.count. lia. Qed.

Lemma slice_to_nonneg {A} (l : list A) n :
  0 <= n -> Py.slice_to l n = firstn (Z.to_nat n) l.
Proof. intros H. unfold Py.slice_to. destruct (0 <=? n) eqn:E; [reflexivity | lia]. Qed.

(** ** Sub-sequences *)

Lemma subseq_refl {A} (l : list A) : subseq l l.
Proof. induction l; constructor; assumption. Qed.

Lemma subseq_nil_l {A} (l : list A) : subseq [] l.
Proof. induction l; constructor; assumption. Qed.

Lemma subseq_trans {A} (l1 l2 l3 : list A) :
  subseq l1 l2 -> subseq l2 l3 -> subseq l1 l3.
Proof.
  intros H12 H23. revert l1 H12.
  induction H23 as [|x l2 l3 H IH|x l2 l3 H IH]; intros l1 H12.
  - assumption.
  - constructor. apply IH. assumption.
  - inversion H12; subst.
    + constructor. apply IH. assumption.
    + constructor 3. apply IH. assumption.
Qed.

Lemma subseq_filter {A} (p : A -> bool) (l : list A) : subseq (filter p l) l.
Proof.
  induction l as [|x l IH]; simpl; [constructor|].
  destruct (p x); constructor; assumption.
Qed.

Lemma subseq_firstn {A} n (l : list A) : subseq (firstn n l) l.
Proof.
  revert n; induction l as [|x l IH]; intros [|n]; simpl.
  - constructor.
  - constructor.
  - apply subseq_nil_l.
  - apply subseq_keep, IH.
Qed.

Lemma subseq_map {A B} (f : A -> B) l1 l2 :
  subseq l1 l2 -> subseq (map f l1) (map f l2).
Proof. induction 1; simpl; constructor; assumption. Qed.


(** ** The stable descending sort *)

Section SortFacts.
Context {A : Type} (key : A -> Z).

Lemma insert_desc_perm x l : Permutation (insert_desc key x l) (x :: l).
Proof.
  induction l as [|y l IH]; simpl; [reflexivity|].
  destruct (key y <=? key x); [reflexivity|].
  rewrite IH. apply perm_swap.
Qed.

Lemma sort_desc_perm l : Permutation (sort_desc key l) l.
Proof.
  induction l as [|x l IH]; simpl; [reflexivity|].
  rewrite insert_desc_perm. constructor. assumption.
Qed.

Lemma insert_desc_sorted x l :
  StronglySorted (desc key) l -> StronglySorted (desc key) (insert_desc key x l).
Proof.
  induction 1 as [|y l Hs IH Hy]; simpl.
  - repeat constructor.
  - destruct (key y <=? key x) eqn:E.
    + apply Z.leb_le in E. constructor; [constructor; assumption|].
      constructor; [exact E|].
      rewrite Forall_forall in *. intros z Hz. unfold desc in *.
      specialize (Hy z Hz). lia.
    + apply Z.leb_gt in E. constructor; [assumption|].
      rewrite Forall_forall in *. intros z Hz.
      apply (Permutation_in _ (insert_desc_perm x l)) in Hz.
      destruct Hz as [<-|Hz]; unfold desc in *; [lia | auto].
Qed.

Lemma sort_desc_sorted l : StronglySorted (desc key) (sort_desc key l).
Proof.
  induction l; simpl; [constructor | apply insert_desc_sorted; assumption].
Qed.



End SortFacts.

Lemma subseq_In {A} (l1 l2 : list A) x : subseq l1 l2 -> In x l1 -> In x l2.
Proof.
  induction 1 as [|y l1 l2 H IH|y l1 l2 H IH]; simpl; intros Hin.
  - assumption.
  - right. apply IH. assumption.
  - destruct Hin as [->|Hin]; [left; reflexivity | right; apply IH; assumption].
Qed.

Lemma StronglySorted_firstn {A} (R : A -> A -> Prop) n l :
  StronglySorted R l -> StronglySorted R (firstn n l).
Proof.
  intros H; revert n; induction H as [|x l Hs IH Hx]; intros [|n]; simpl;
    try constructor; auto.
  rewrite Forall_forall in *. intros y Hy. apply Hx.
  eapply subseq_In; [apply subseq_firstn | exact Hy].
Qed.

Lemma StronglySorted_map {A B} (R : A -> A -> Prop) (R' : B -> B -> Prop)
    (f : A -> B) l :
  (forall a b, In a l -> In b l -> R a b -> R' (f a) (f b)) ->
  StronglySorted R l -> StronglySorted R' (map f l).
Proof.
  intros Hf H. induction H as [|x l Hs IH Hx]; simpl; constructor.
  - apply IH. intros a b Ha Hb. apply Hf; right; assumption.
  - rewrite Forall_forall in *. intros y Hy.
    apply in_map_iff in Hy. destruct Hy as [z [<- Hz]].
    apply Hf; [left; reflexivity | right; assumption | auto].
Qed.


(** ** The evidence ranker *)

(** Past the two gates the score is at least the length bonus. *)
Lemma relevance_pos cw r : passes_gates r = true -> 1 <= relevance cw r.
Proof.
  unfold passes_gates, relevance, matching, MIN_SNIPPET_LENGTH. intros H.
  apply andb_true_iff in H. destruct H as [H _].
  apply negb_true_iff, Z.ltb_ge in H.
  pose proof (strip_len (snippet r)).
  set (m1 := Py.count _ _). set (m2 := Py.count _ _).
  pose proof (count_nonneg _ _ : 0 <= m1) as H1.
  pose proof (count_nonneg _ _ : 0 <= m2) as H2.
  clearbody m1 m2.
  destruct (100 <=? Py.len (snippet r)) eqn:E100.
  - destruct (0 <? m2), (0 <? m1); lia.
  - destruct (50 <=? Py.len (snippet r)) eqn:E50; [|apply Z.leb_gt in E50; lia].
    destruct (0 <? m2), (0 <? m1); lia.
Qed.

Lemma filter_step_accepted cw st r :
  passes_gates r = true ->
  filter_step cw st r
  = mkFilter (filtered st ++ [set_relevance_score r (relevance cw r)])
             (skipped_short st) (skipped_no_url st) (skipped_no_match st).
Proof.
  intros H. pose proof (relevance_pos cw r H) as Hpos.
  unfold passes_gates in H. unfold filter_step.
  apply andb_true_iff in H. destruct H as [H1 H2].
  apply negb_true_iff in H1, H2. rewrite H1, H2.
  destruct (relevance cw r =? 0) eqn:E; [apply Z.eqb_eq in E; lia | reflexivity].
Qed.

Lemma filter_step_rejected cw st r :
  passes_gates r = false ->
  filtered (filter_step cw st r) = filtered st
  /\ skipped_no_match (filter_step cw st r) = skipped_no_match st.
Proof.
  unfold passes_gates, filter_step. intros H.
  destruct (Py.len (Py.strip (snippet r)) <? MIN_SNIPPET_LENGTH); simpl in *; [auto|].
  destruct (Py.is_empty (url r) || (Py.len (Py.strip (url r)) <? MIN_URL_LENGTH));
    simpl in *; [auto | discriminate].
Qed.

Lemma filter_loop_from cw results st :
  filtered (fold_left (filter_step cw) results st)
  = (filtered st
     ++ map (fun r => set_relevance_score r (relevance cw r))
            (filter passes_gates results))%list
  /\ skipped_no_match (fold_left (filter_step cw) results st) = skipped_no_match st.
Proof.
  revert st; induction results as [|r results IH]; intros st; simpl.
  - rewrite app_nil_r. auto.
  - destruct (IH (filter_step cw st r)) as [IH1 IH2]. rewrite IH1, IH2.
    destruct (passes_gates r) eqn:E.
    + rewrite filter_step_accepted by assumption. simpl.
      rewrite <- app_assoc. auto.
    + destruct (filter_step_rejected cw st r E) as [-> ->]. auto.
Qed.

(** The branch counted by [skipped_no_match] is never taken. *)
Lemma skipped_no_match_is_zero cw results :
  skipped_no_match (filter_loop cw results) = 0.
Proof. unfold filter_loop. apply filter_loop_from. Qed.

(** The ranker in closed form: filter by length, sort stably by score,
    cut. *)
Lemma filter_search_results_closed results claim max_results :
  _filter_search_results results claim max_results
  = Py.slice_to
      (map pop_relevance_score
         (sort_desc get_relevance_score
            (map (fun r => set_relevance_score r (score_for claim r))
                 (filter passes_gates results))))
      max_results.
Proof.
  unfold _filter_search_results, filter_loop, score_for, claim_words_of.
  destruct results as [|r results].
  - simpl. unfold Py.slice_to. destruct (0 <=? max_results); simpl;
      rewrite firstn_nil; reflexivity.
  - destruct (filter_loop_from (Py.set (Py.split (Py.lower claim))) (r :: results)
                (mkFilter [] 0 0 0)) as [-> _].
    reflexivity.
Qed.




(** C2, at the failing input: the off-topic item passes both length
    gates, none of the claim's words occurs in its title or snippet, and
    yet the ranker returns it. *)
Theorem unmatched_item_survives_ranking :
  passes_gates weather_item = true
  /\ no_claim_word_match berlin_claim weather_item
  /\ _filter_search_results [weather_item] berlin_claim MAX_FILTERED_RESULTS
     = [weather_item].
Proof. vm_compute. repeat split; reflexivity. Qed.

(** With a cap that does not cut, every item that passes the two length
    gates is returned, whatever its word matches. *)
Lemma ranker_keeps_every_gated_item results claim r :
  In r results -> passes_gates r = true ->
  In (pop_relevance_score r)
     (_filter_search_results results claim (Z.of_nat (length results))).
Proof.
  intros Hin Hg.
  rewrite filter_search_results_closed, slice_to_nonneg, Nat2Z.id by lia.
  rewrite firstn_all2.
  - apply in_map_iff.
    exists (set_relevance_score r (score_for claim r)). split; [reflexivity|].
    apply (Permutation_in _ (Permutation_sym (sort_desc_perm _ _))).
    apply (in_map (fun r => set_relevance_score r (score_for claim r))).
    apply filter_In. auto.
  - rewrite length_map, (Permutation_length (sort_desc_perm _ _)), length_map.
    apply filter_length_le.
Qed.

(** ** The fuel of the JSON scanner *)

Lemma skip_ws_length s : (String.length (Json.skip_ws s) <= String.length s)%nat.
Proof.
  induction s as [|c s IH]; simpl; [lia|].
  destruct (Json.is_ws c); simpl; lia.
Qed.

Lemma take_digits_length s : forall ds r,
  Json.take_digits s = (ds, r) -> (String.length r <= String.length s)%nat.
Proof.
  induction s as [|c s IH]; intros ds r H; simpl in H.
  - injection H as <- <-. simpl. lia.
  - destruct (Py.isdigit c).
    + destruct (Json.take_digits s) as [ds' r'] eqn:E. injection H as <- <-.
      specialize (IH _ _ eq_refl). simpl. lia.
    + injection H as <- <-. lia.
Qed.

Lemma literal_length lit : forall s r,
  Json.literal lit s = Some r ->
  String.length s = (String.length lit + String.length r)%nat.
Proof.
  induction lit as [|a lit IH]; intros s r H; simpl in H.
  - injection H as <-. reflexivity.
  - destruct s as [|b s]; [discriminate|].
    destruct (Ascii.eqb a b); [|discriminate].
    apply IH in H. simpl. lia.
Qed.

Lemma match_number_shorter s v r :
  Json.match_number s = Some (v, r) -> (String.length r < String.length s)%nat.
Proof.
  unfold Json.match_number.
  set (p := match s with
            | String c t => if Ascii.eqb c "-" then (true, t) else (false, s)
            | EmptyString => (false, s)
            end).
  assert (Hp : (String.length (snd p) <= String.length s)%nat).
  { subst p. destruct s as [|c t]; simpl; [lia|].
    destruct (Ascii.eqb c "-"); simpl; lia. }
  destruct p as [neg s1]. simpl in Hp.
  destruct (Json.match_integer s1) as [[int_ds s2]|] eqn:Ei; [|discriminate].
  assert (H2 : (String.length s2 < String.length s1)%nat).
  { unfold Json.match_integer in Ei. destruct s1 as [|c t]; [discriminate|].
    destruct (Ascii.eqb c "0").
    - injection Ei as <- <-. simpl. lia.
    - destruct (Py.isdigit c); [|discriminate].
      destruct (Json.take_digits t) as [ds r'] eqn:Et. injection Ei as <- <-.
      apply take_digits_length in Et. simpl. lia. }
  destruct (Json.match_frac s2) as [frac_ds s3] eqn:Ef.
  assert (H3 : (String.length s3 <= String.length s2)%nat).
  { unfold Json.match_frac in Ef. destruct s2 as [|c t]; [injection Ef as <- <-; lia|].
    destruct (Ascii.eqb c ".").
    - destruct (Json.take_digits t) as [ds r'] eqn:Et.
      apply take_digits_length in Et.
      destruct (Py.is_empty ds); injection Ef as <- <-; simpl; lia.
    - injection Ef as <- <-. lia. }
  destruct (Json.match_exp s3) as [exp s4] eqn:Ee.
  assert (H4 : (String.length s4 <= String.length s3)%nat).
  { unfold Json.match_exp in Ee. destruct s3 as [|c t]; [injection Ee as <- <-; lia|].
    destruct (Ascii.eqb c "e" || Ascii.eqb c "E"); [|injection Ee as <- <-; lia].
    set (q := match t with
              | String sg t0 =>
                  if Ascii.eqb sg "-" then (true, t0)
                  else if Ascii.eqb sg "+" then (false, t0) else (false, t)
              | EmptyString => (false, t)
              end) in Ee.
    assert (Hq : (String.length (snd q) <= String.length t)%nat).
    { subst q. destruct t as [|sg t0]; simpl; [lia|].
      destruct (Ascii.eqb sg "-"); simpl; [lia|].
      destruct (Ascii.eqb sg "+"); simpl; lia. }
    destruct q as [neg' s'']. simpl in Hq.
    destruct (Json.take_digits s'') as [ds r'] eqn:Et.
    apply take_digits_length in Et.
    destruct (Py.is_empty ds); injection Ee as <- <-; simpl; lia. }
  intros H.
  assert (r = s4) as ->.
  { destruct (Py.is_empty frac_ds), exp; injection H as _ <-; reflexivity. }
  lia.
Qed.

Lemma scanstring_eq c s' :
  Json.scanstring (String c s')
  = if Ascii.eqb c dquote then Json.Scanned "" s'
    else if Ascii.eqb c "\" then
      match s' with
      | EmptyString => Json.DecodeError
      | String esc s'' =>
          if Ascii.eqb esc "u" then
            match s'' with
            | String a (String b (String c0 (String d rest))) =>
                match Json.decode_uXXXX s'' with
                | Some (uni, _) =>
                    let single :=
                      match Json.scanstring rest with
                      | Json.Scanned t r => Json.Scanned (String (Json.chr uni) t) r
                      | e => e
                      end in
                    if (55296 <=? uni) && (uni <=? 56319) then
                      match rest with
                      | String b1 (String u1 (String a2 (String b2 (String c2 (String d2 rest2))))) =>
                          if Ascii.eqb b1 "\" && Ascii.eqb u1 "u" then
                            match Json.decode_uXXXX (String a2 (String b2 (String c2 (String d2 rest2)))) with
                            | Some (uni2, _) =>
                                if (56320 <=? uni2) && (uni2 <=? 57343) then
                                  match Json.scanstring rest2 with
                                  | Json.Scanned t r =>
                                      Json.Scanned (String (Json.chr (65536 + ((uni - 55296) * 1024 + (uni2 - 56320)))) t) r
                                  | e => e
                                  end
                                else single
                            | None => Json.DecodeError
                            end
                          else single
                      | _ => single
                      end
                    else single
                | None => Json.DecodeError
                end
            | _ => Json.DecodeError
            end
          else
            match Json.backslash esc with
            | Some ch =>
                match Json.scanstring s'' with
                | Json.Scanned t r => Json.Scanned (String ch t) r
                | e => e
                end
            | None => Json.DecodeError
            end
      end
    else if (nat_of_ascii c <? 32)%nat then Json.DecodeError
    else
      match Json.scanstring s' with
      | Json.Scanned t r => Json.Scanned (String c t) r
      | e => e
      end.
Proof. reflexivity. Qed.

Lemma progresses_error {A} enough bound : progresses enough bound (@Json.DecodeError A).
Proof. split; [discriminate | intros; discriminate]. Qed.

Lemma progresses_scanned {A} enough bound (a : A) r :
  (String.length r < bound)%nat -> progresses enough bound (Json.Scanned a r).
Proof.
  intros H. split; [discriminate|]. intros a' r' E. injection E as <- <-. exact H.
Qed.

Lemma progresses_weaken {A} (enough enough' : Prop) bound bound' (x : Json.scan A) :
  progresses enough bound x -> (enough' -> enough) -> (bound <= bound')%nat ->
  progresses enough' bound' x.
Proof.
  intros [H1 H2] He Hb. split; [auto|].
  intros a r E. specialize (H2 _ _ E). lia.
Qed.

Lemma progresses_map {A B} (f : A -> B) enough bound (x : Json.scan A) :
  progresses enough bound x ->
  progresses enough bound match x with
                          | Json.Scanned t r => Json.Scanned (f t) r
                          | Json.DecodeError => Json.DecodeError
                          | Json.OutOfFuel => Json.OutOfFuel
                          end.
Proof.
  intros [H1 H2]. destruct x as [t r| |].
  - apply progresses_scanned. exact (H2 _ _ eq_refl).
  - apply progresses_error.
  - split; [intros He; exfalso; apply (H1 He); reflexivity | intros; discriminate].
Qed.

Lemma scanstring_progress n : forall s,
  (String.length s <= n)%nat -> progresses True (String.length s) (Json.scanstring s).
Proof.
  induction n as [|n IH]; intros s Hn.
  - destruct s; [|simpl in Hn; lia]. apply progresses_error.
  - destruct s as [|c s']; [apply progresses_error|].
    rewrite scanstring_eq. simpl in Hn.
    assert (Hrec : forall ch x, (String.length x <= String.length s')%nat ->
              progresses True (S (String.length s'))
                match Json.scanstring x with
                | Json.Scanned t r => Json.Scanned (String ch t) r
                | Json.DecodeError => Json.DecodeError
                | Json.OutOfFuel => Json.OutOfFuel
                end).
    { intros ch x Hx. apply progresses_map.
      apply (progresses_weaken True True (String.length x)); [apply IH; lia | auto | lia]. }
    clear IH. simpl String.length.
    destruct (Ascii.eqb c dquote); [apply progresses_scanned; lia|].
    destruct (Ascii.eqb c "\").
    + destruct s' as [|esc s'']; [apply progresses_error|].
      destruct (Ascii.eqb esc "u").
      * destruct s'' as [|a [|b [|c0 [|d rest]]]]; try apply progresses_error.
        destruct (Json.decode_uXXXX _) as [[uni ?]|]; [|apply progresses_error].
        cbv zeta.
        assert (Hsingle := Hrec (Json.chr uni) rest).
        set (single := match Json.scanstring rest with
                       | Json.Scanned t r => Json.Scanned (String (Json.chr uni) t) r
                       | Json.DecodeError => Json.DecodeError
                       | Json.OutOfFuel => Json.OutOfFuel
                       end) in *.
        assert (progresses True
                  (S (String.length (String esc (String a (String b (String c0 (String d rest)))))))
                  single) as Hs by (apply Hsingle; simpl; lia).
        clearbody single. clear Hsingle.
        destruct ((55296 <=? uni) && (uni <=? 56319)); [|exact Hs].
        destruct rest as [|b1 [|u1 [|a2 [|b2 [|c2 [|d2 rest2]]]]]]; try exact Hs.
        destruct (Ascii.eqb b1 "\" && Ascii.eqb u1 "u"); [|exact Hs].
        destruct (Json.decode_uXXXX _) as [[uni2 ?]|]; [|apply progresses_error].
        destruct ((56320 <=? uni2) && (uni2 <=? 57343)); [|exact Hs].
        apply Hrec. simpl. lia.
      * destruct (Json.backslash esc); [|apply progresses_error].
        apply Hrec. simpl. lia.
    + destruct (nat_of_ascii c <? 32)%nat; [apply progresses_error|].
      apply Hrec. lia.
Qed.

Lemma scanstring_shorter s : progresses True (String.length s) (Json.scanstring s).
Proof. apply (scanstring_progress (String.length s)). lia. Qed.

(** With fuel above twice the length of the text the scanner never runs
    out of fuel, and a scanned value always consumes some text. *)
Lemma scan_progress fuel :
  (forall s, progresses (2 * String.length s < fuel)%nat (String.length s)
                        (Json.scan_once fuel s))
  /\ (forall s values,
        progresses (2 * String.length s + 1 < fuel)%nat (String.length s)
                   (Json.array_loop fuel s values))
  /\ (forall s pairs,
        progresses (2 * String.length s + 1 < fuel)%nat (String.length s)
                   (Json.object_loop fuel s pairs)).
Proof.
  induction fuel as [|fuel [IHv [IHa IHo]]].
  - repeat split; try (intros; discriminate); simpl; lia.
  - split; [|split].
    + intros [|c s']; [apply progresses_error|]. cbn [Json.scan_once].
      destruct (Ascii.eqb c dquote).
      { apply (progresses_map PyStr).
        eapply progresses_weaken; [apply scanstring_shorter | auto | simpl; lia]. }
      pose proof (skip_ws_length s') as Hws.
      destruct (Ascii.eqb c "{").
      { destruct (Json.skip_ws s') as [|q s'']; [apply progresses_error|].
        simpl in Hws.
        destruct (Ascii.eqb q "}"); [apply progresses_scanned; simpl; lia|].
        destruct (Ascii.eqb q dquote); [|apply progresses_error].
        eapply progresses_weaken; [apply IHo | simpl; lia | simpl; lia]. }
      destruct (Ascii.eqb c "[").
      { destruct (Json.skip_ws s') as [|q s''] eqn:E; [apply progresses_error|].
        destruct (Ascii.eqb q "]"); [apply progresses_scanned; simpl in *; lia|].
        eapply progresses_weaken; [apply IHa | simpl in *; lia | simpl in *; lia]. }
      destruct (Json.literal "null" _) eqn:E1;
        [apply literal_length in E1; apply progresses_scanned; simpl in *; lia|].
      destruct (Json.literal "true" _) eqn:E2;
        [apply literal_length in E2; apply progresses_scanned; simpl in *; lia|].
      destruct (Json.literal "false" _) eqn:E3;
        [apply literal_length in E3; apply progresses_scanned; simpl in *; lia|].
      destruct (Json.match_number _) as [[v r]|] eqn:E4;
        [apply match_number_shorter in E4; apply progresses_scanned; exact E4|].
      destruct (Json.literal "NaN" _) eqn:E5;
        [apply literal_length in E5; apply progresses_scanned; simpl in *; lia|].
      destruct (Json.literal "Infinity" _) eqn:E6;
        [apply literal_length in E6; apply progresses_scanned; simpl in *; lia|].
      destruct (Json.literal "-Infinity" _) eqn:E7;
        [apply literal_length in E7; apply progresses_scanned; simpl in *; lia|].
      apply progresses_error.
    + intros s values. cbn [Json.array_loop].
      destruct (IHv s) as [Hv1 Hv2].
      destruct (Json.scan_once fuel s) as [value r| |] eqn:E.
      * specialize (Hv2 _ _ eq_refl).
        pose proof (skip_ws_length r) as Hws.
        destruct (Json.skip_ws r) as [|c r']; [apply progresses_error|]. simpl in Hws.
        destruct (Ascii.eqb c "]"); [apply progresses_scanned; lia|].
        destruct (Ascii.eqb c ","); [|apply progresses_error].
        pose proof (skip_ws_length r').
        eapply progresses_weaken; [apply IHa | lia | lia].
      * apply progresses_error.
      * split; [intros H; exfalso; apply Hv1; [lia | reflexivity] | intros; discriminate].
    + intros s pairs. cbn [Json.object_loop].
      destruct (scanstring_shorter s) as [Hs1 Hs2].
      destruct (Json.scanstring s) as [key r| |] eqn:E;
        [|apply progresses_error | exfalso; apply Hs1; auto].
      specialize (Hs2 _ _ eq_refl).
      pose proof (skip_ws_length r) as Hws.
      destruct (Json.skip_ws r) as [|c r']; [apply progresses_error|]. simpl in Hws.
      destruct (Ascii.eqb c ":"); [|apply progresses_error].
      pose proof (skip_ws_length r') as Hws'.
      destruct (IHv (Json.skip_ws r')) as [Hv1 Hv2].
      destruct (Json.scan_once fuel (Json.skip_ws r')) as [value r''| |] eqn:Ev.
      * specialize (Hv2 _ _ eq_refl).
        pose proof (skip_ws_length r'') as Hws''.
        destruct (Json.skip_ws r'') as [|c' r3]; [apply progresses_error|]. simpl in Hws''.
        destruct (Ascii.eqb c' "}"); [apply progresses_scanned; lia|].
        destruct (Ascii.eqb c' ","); [|apply progresses_error].
        pose proof (skip_ws_length r3) as Hws3.
        destruct (Json.skip_ws r3) as [|q r4]; [apply progresses_error|]. simpl in Hws3.
        destruct (Ascii.eqb q dquote); [|apply progresses_error].
        eapply progresses_weaken; [apply IHo | lia | lia].
      * apply progresses_error.
      * split; [intros H; exfalso; apply Hv1; [lia | reflexivity] | intros; discriminate].
Qed.

(** [json.loads] never runs out of fuel: it fails only where the text is
    not JSON. *)
Lemma loads_fuel_is_enough s :
  Json.scan_once (Json.enough_fuel s) (Json.skip_ws s) <> Json.OutOfFuel.
Proof.
  apply (proj1 (scan_progress (Json.enough_fuel s))).
  pose proof (skip_ws_length s). unfold Json.enough_fuel. lia.
Qed.

(** ** The verdict parser *)

Lemma loads_raises s e : Json.loads s = Raises e -> e = JSONDecodeError.
Proof.
  unfold Json.loads.
  destruct (Json.scan_once _ _) as [v rest| |]; try congruence.
  destruct (Py.is_empty _); congruence.
Qed.

(** The three strategies end in a decoded value or in the hard-failure
    verdict, never in an exception. *)
Lemma decode_response_returns response_text :
  exists d, decode_response response_text = Returns d.
Proof.
  unfold decode_response.
  destruct (Json.loads response_text) as [data|e] eqn:E1; [eauto|].
  rewrite (loads_raises _ _ E1).
  destruct (Json.loads (extract_balanced _)) as [data|e2] eqn:E2; [eauto|].
  rewrite (loads_raises _ _ E2).
  destruct (Json.loads (_repair_json_strings _)); eauto.
Qed.

Lemma hard_failure_when_all_strategies_fail self response_text e1 e2 e3 :
  Json.loads response_text = Raises e1 ->
  Json.loads (extract_balanced (_clean_json_response response_text)) = Raises e2 ->
  Json.loads (_repair_json_strings
                (extract_balanced (_clean_json_response response_text)))
  = Raises e3 ->
  _parse_veracity_response self response_text = Returns parse_failure.
Proof.
  intros H1 H2 H3.
  unfold _parse_veracity_response, decode_response.
  rewrite H1, (loads_raises _ _ H1), H2, (loads_raises _ _ H2), H3.
  reflexivity.
Qed.

Lemma parse_returns self response_text :
  exists verdict, _parse_veracity_response self response_text = Returns verdict.
Proof.
  unfold _parse_veracity_response.
  destruct (decode_response_returns response_text) as [[data|failure] ->]; simpl.
  - destruct (extract_fields self data); eauto.
  - eauto.
Qed.



(** ** The example answer, whatever its tail *)

Lemma enough_fuel_nonempty c s :
  Json.enough_fuel (String c s) = S (S (S (S (2 * String.length s)))).
Proof. unfold Json.enough_fuel. simpl. lia. Qed.

Lemma loads_quoted_prefix rest :
  Json.loads (quoted_prefix ++ rest) = Raises JSONDecodeError.
Proof.
  unfold Json.loads.
  change (quoted_prefix ++ rest)
    with (String "{" (Re.drop 1 quoted_prefix ++ rest)).
  rewrite enough_fuel_nonempty.
  generalize (2 * String.length (Re.drop 1 quoted_prefix ++ rest))%nat. intros f.
  reflexivity.
Qed.

Lemma clean_quoted_prefix rest :
  _clean_json_response (quoted_prefix ++ rest) = quoted_prefix ++ Py.rstrip rest.
Proof. reflexivity. Qed.

Lemma balance_loop_after s : forall i brace_count in_string escape_next e,
  balance_loop s i brace_count in_string escape_next = Some e -> i < e.
Proof.
  induction s as [|c s IH]; intros i bc ins esc e H; simpl in H; [discriminate|].
  repeat match type of H with
         | (if ?b then _ else _) = _ => destruct b
         end;
    try (apply IH in H; lia);
    injection H as <-; lia.
Qed.

Lemma balance_quoted_prefix rest :
  balance_loop (quoted_prefix ++ rest) 0 0 false false
  = balance_loop rest 59 1 false false.
Proof. reflexivity. Qed.

Lemma find_quoted_prefix rest : find "{" (quoted_prefix ++ rest) = 0.
Proof. reflexivity. Qed.

Lemma rfind_ge c s : -1 <= rfind c s.
Proof.
  induction s as [|d s IH]; simpl; [lia|].
  destruct (negb (rfind c s =? -1)); [lia|]. destruct (Ascii.eqb c d); lia.
Qed.

Lemma rfind_app c m t :
  rfind c (m ++ t)
  = if rfind c t =? -1 then rfind c m else Z.of_nat (String.length m) + rfind c t.
Proof.
  induction m as [|d m IH].
  - simpl. destruct (rfind c t =? -1) eqn:E; [apply Z.eqb_eq in E|]; lia.
  - change ((String d m ++ t)%string) with (String d (m ++ t)).
    cbn [rfind]. rewrite IH. pose proof (rfind_ge c t). pose proof (rfind_ge c m).
    destruct (rfind c t =? -1) eqn:E; [reflexivity|].
    apply Z.eqb_neq in E.
    replace (Z.of_nat (String.length m) + rfind c t =? -1) with false
      by (symmetry; apply Z.eqb_neq; lia).
    simpl negb. cbv iota. simpl String.length. lia.
Qed.

Lemma slice_from_start m t e :
  Z.of_nat (String.length m) <= e ->
  slice (m ++ t) 0 e = m ++ Py.prefix_of (Z.to_nat e - String.length m) t.
Proof.
  intros H. unfold slice. rewrite Z.sub_0_r. simpl Re.drop.
  replace (Z.to_nat e) with ((Z.to_nat e - String.length m) + String.length m)%nat at 1 by lia.
  apply prefix_of_app.
Qed.

(** The brace-balanced extract of a text that starts with the example
    still starts with it. *)
Lemma extract_quoted_prefix rest :
  exists rest', extract_balanced (quoted_prefix ++ rest) = quoted_prefix ++ rest'.
Proof.
  unfold extract_balanced. rewrite find_quoted_prefix. simpl negb. cbv iota.
  change (Re.drop (Z.to_nat 0) (quoted_prefix ++ rest)) with (quoted_prefix ++ rest).
  rewrite balance_quoted_prefix.
  destruct (balance_loop rest 59 1 false false) as [e|] eqn:E.
  - apply balance_loop_after in E.
    replace (0 <? e) with true by (symmetry; apply Z.ltb_lt; lia).
    rewrite slice_from_start by (change (Z.of_nat (String.length quoted_prefix)) with 59; lia).
    eauto.
  - change (0 <? 0) with false. cbv iota. rewrite rfind_app.
    change (rfind "}" quoted_prefix) with (-1).
    change (Z.of_nat (String.length quoted_prefix)) with 59.
    pose proof (rfind_ge "}" rest).
    destruct (rfind "}" rest =? -1) eqn:R.
    + simpl. eauto.
    + apply Z.eqb_neq in R.
      replace (0 <? 59 + rfind "}" rest) with true by (symmetry; apply Z.ltb_lt; lia).
      rewrite slice_from_start by (change (Z.of_nat (String.length quoted_prefix)) with 59; lia).
      eauto.
Qed.

Lemma join_app l1 l2 : join (l1 ++ l2) = join l1 ++ join l2.
Proof.
  induction l1 as [|x l1 IH]; simpl; [reflexivity|].
  rewrite IH. unfold join. simpl.
  induction x as [|c x IHx]; simpl; [reflexivity | rewrite IHx; reflexivity].
Qed.

Lemma repair_loop_extends s : forall result in_string escape_next,
  exists more, join (repair_loop s result in_string escape_next) = join result ++ more.
Proof.
  induction s as [|c s IH]; intros result ins esc; simpl.
  - exists "". symmetry. apply append_empty_r.
  - assert (Hstep : forall piece i e,
              exists more, join (repair_loop s (result ++ [piece]) i e)
                           = join result ++ more).
    { intros piece i e. destruct (IH (result ++ [piece])%list i e) as [more ->].
      rewrite join_app. exists (join [piece] ++ more).
      generalize (join [piece]). generalize (join result). intros a b.
      induction a as [|x a IHa]; simpl; [reflexivity | rewrite IHa; reflexivity]. }
    repeat match goal with
           | |- context [if ?b then _ else _] => destruct b
           end; apply Hstep.
Qed.

(** The repair pass does not change the example: a text that starts
    with it is repaired to a text that starts with it. *)
Lemma repair_quoted_prefix rest :
  exists rest', _repair_json_strings (quoted_prefix ++ rest) = quoted_prefix ++ rest'.
Proof.
  unfold _repair_json_strings.
  set (pieces := repair_loop quoted_prefix [] false false).
  assert (E : repair_loop (quoted_prefix ++ rest) [] false false
              = repair_loop rest pieces false false) by reflexivity.
  rewrite E. destruct (repair_loop_extends rest pieces false false) as [more ->].
  exists more. reflexivity.
Qed.

(** Whatever follows the example's unescaped quotes, the parser returns
    the hard-failure verdict. *)
Lemma quoted_prefix_is_never_repaired self rest :
  _parse_veracity_response self (quoted_prefix ++ rest) = Returns parse_failure.
Proof.
  destruct (extract_quoted_prefix (Py.rstrip rest)) as [r2 E2].
  destruct (repair_quoted_prefix r2) as [r3 E3].
  apply (hard_failure_when_all_strategies_fail self _
           JSONDecodeError JSONDecodeError JSONDecodeError).
  - apply loads_quoted_prefix.
  - rewrite clean_quoted_prefix, E2. apply loads_quoted_prefix.
  - rewrite clean_quoted_prefix, E2, E3. apply loads_quoted_prefix.
Qed.

(** C3, at the failing input.  The repair pass leaves the answer with the
    unescaped quotes as it is, all three strategies fail, and the parser
    returns the hard-failure verdict, whose justification does not
    contain the word no; and so it is for every text that starts as the
    example does, whatever stands for its elided tail. *)
Theorem unescaped_quote_is_not_repaired self :
  _repair_json_strings (extract_balanced (_clean_json_response quoted_response))
  = quoted_response
  /\ _parse_veracity_response self quoted_response = Returns parse_failure
  /\ justification parse_failure = PyStr "Invalid JSON response from analysis"
  /\ Py.contains "no" "Invalid JSON response from analysis" = false
  /\ (forall tail,
        _parse_veracity_response self (quoted_prefix ++ tail) = Returns parse_failure).
Proof.
  split; [vm_compute; reflexivity|].
  split; [|split; [reflexivity | split; [reflexivity|]]].
  - apply (hard_failure_when_all_strategies_fail self quoted_response
             JSONDecodeError JSONDecodeError JSONDecodeError);
      vm_compute; reflexivity.
  - apply quoted_prefix_is_never_repaired.
Qed.

(** The same holds with the tail of the example left as three dots. *)
Lemma unescaped_quote_is_not_repaired_dots self :
  _parse_veracity_response self quoted_response_dots = Returns parse_failure.
Proof. apply (quoted_prefix_is_never_repaired self ",...}"). Qed.

(** ** The source reconciler *)

Lemma auto_map_closed self (j : string) :
  _current_search_results self <> [] ->
  _auto_map_sources_from_results self (PyStr j)
  = Returns
      (map mapped_source
         (if is_nil (filter (fun result =>
                               MIN_RELEVANCE_SCORE <=? overlap (keywords (Py.lower j)) result)
                            (_current_search_results self))
          then firstn 2 (_current_search_results self)
          else filter (fun result =>
                         MIN_RELEVANCE_SCORE <=? overlap (keywords (Py.lower j)) result)
                      (_current_search_results self))).
Proof.
  intros Hne. unfold _auto_map_sources_from_results.
  destruct (_current_search_results self) as [|e ev] eqn:Ev; [congruence|].
  cbv zeta.
  remember (filter (fun result =>
                      MIN_RELEVANCE_SCORE <=? overlap (keywords (Py.lower j)) result)
                   (e :: ev)) as hits.
  destruct hits; reflexivity.
Qed.



(** ** Where the sources of a verdict come from *)

Lemma decode_response_failure response_text failure :
  decode_response response_text = Returns (inr failure) -> failure = parse_failure.
Proof.
  unfold decode_response.
  destruct (Json.loads response_text) as [data|[]]; try congruence.
  destruct (Json.loads (extract_balanced _)) as [data|[]]; try congruence.
  destruct (Json.loads (_repair_json_strings _)); congruence.
Qed.

Lemma auto_map_from_evidence self justification mapped :
  _auto_map_sources_from_results self justification = Returns mapped ->
  Forall (fun s => exists e, In e (_current_search_results self) /\ s = mapped_source e)
         mapped.
Proof.
  destruct (_current_search_results self) as [|e0 ev] eqn:Ev.
  - unfold _auto_map_sources_from_results. rewrite Ev. simpl.
    intros H; injection H as <-. constructor.
  - destruct justification as [| | | |j| |];
      try (unfold _auto_map_sources_from_results; rewrite Ev; simpl; discriminate).
    rewrite auto_map_closed by congruence. intros H; injection H as <-.
    rewrite Forall_forall. intros s Hs. apply in_map_iff in Hs.
    destruct Hs as [e [<- He]]. exists e. split; [|reflexivity].
    rewrite <- Ev.
    destruct (is_nil _).
    + apply (subseq_In (firstn 2 (_current_search_results self)));
        [apply subseq_firstn | exact He].
    + apply filter_In in He. tauto.
Qed.

(** The sources of a parsed verdict are the entries the answer reports,
    or, when it reports none, sources derived from the evidence buffer. *)
Lemma parse_sources self response_text verdict :
  _parse_veracity_response self response_text = Returns verdict ->
  sources verdict = response_sources response_text
  \/ (response_sources response_text = []
      /\ _current_search_results self <> []
      /\ Forall (fun s => exists e, In e (_current_search_results self)
                                    /\ s = mapped_source e)
                (sources verdict)).
Proof.
  unfold _parse_veracity_response, response_sources.
  destruct (decode_response response_text) as [[data|failure]|e] eqn:E; simpl;
    [| |discriminate].
  - destruct data as [| | | | | |d];
      try (simpl; intros H; injection H as <-; left; reflexivity).
    unfold extract_fields. simpl get. unfold bind at 2 3 4 5.
    set (reported := reported_sources _).
    destruct (is_nil reported && negb (is_nil (_current_search_results self))) eqn:C.
    + apply andb_true_iff in C. destruct C as [C1 C2].
      assert (reported = []) as -> by (destruct reported; [reflexivity | discriminate]).
      destruct (_auto_map_sources_from_results self _) as [mapped|e] eqn:M; simpl.
      * intros H; injection H as <-. simpl. right. split; [reflexivity|]. split.
        -- destruct (_current_search_results self); [discriminate | congruence].
        -- eapply auto_map_from_evidence; eassumption.
      * intros H; injection H as <-. left. reflexivity.
    + simpl. intros H; injection H as <-. left. reflexivity.
  - intros H; injection H as <-.
    rewrite (decode_response_failure _ _ E). left. reflexivity.
Qed.

Lemma buffer_after_context self search_results language :
  _current_search_results (snd (_build_search_context self search_results language))
  = search_results.
Proof.
  unfold _build_search_context. destruct search_results; simpl;
    destruct (String.eqb language "de"); reflexivity.
Qed.




(** ** The orchestrator *)





(** On the success path the buffer is cleared before the verdict is
    returned. *)
Lemma buffer_cleared_on_success w self claim language prompt response_text :
  enabled self = true ->
  get_veracity_prompt w claim
    (strftime_now w (if String.eqb language "de" then "%d. %B %Y" else "%B %d, %Y"))
    (fst (_build_search_context self (_perform_web_searches w self claim language) language))
    language = Returns prompt ->
  _make_api_call w prompt true = Returns response_text ->
  _current_search_results (snd (analyze_veracity w self claim language)) = [].
Proof.
  intros Hen Hp Hapi. unfold analyze_veracity. rewrite Hen. cbn [negb].
  destruct (_build_search_context self _ language) as [search_context self1].
  cbn [fst] in Hp. rewrite Hp. cbn [bind]. rewrite Hapi. cbn [bind].
  destruct (parse_returns self1 response_text) as [v ->]. reflexivity.
Qed.

(** C6, at the failing input.  The search finds a page that passes the
    ranker, the context builder stores it in the buffer, the model call
    raises, and the call returns the default verdict with the page still
    in the buffer. *)
Theorem buffer_survives_failed_call :
  analyze_veracity failing_world ready_service berlin_claim "en"
  = (default_verdict berlin_claim "en", mkService true true [wall_item]).
Proof. vm_compute. reflexivity. Qed.

(** ** The query list *)

Lemma insert_front {A} (l : list A) x : Py.insert l 0 x = x :: l.
Proof.
  unfold Py.insert. simpl (0 <? 0).
  replace (Z.min 0 (Z.of_nat (length l))) with 0 by lia. reflexivity.
Qed.

Lemma search_queries_cons claim language :
  search_queries claim language = claim :: _extract_all_search_queries claim language.
Proof. unfold search_queries. apply insert_front. Qed.

(** C7.  For every claim and every language, the query list built from
    the expansion is non-empty and its first element is the claim
    verbatim; the same holds of the queries that are run. *)
Theorem query_list_starts_with_claim claim language :
  search_queries claim language <> []
  /\ hd_error (search_queries claim language) = Some claim
  /\ executed_queries claim language <> []
  /\ hd_error (executed_queries claim language) = Some claim.
Proof.
  unfold executed_queries. rewrite search_queries_cons.
  repeat split; try discriminate; reflexivity.
Qed.

(** ** The pattern of proper nouns *)

Lemma noun_run_pos m : forall st pos best st' pos' best',
  noun_run st pos best m = Some (st', pos', best') ->
  pos' = (pos + String.length m)%nat.
Proof.
  induction m as [|c m IH]; intros st pos best st' pos' best' H; simpl in *.
  - injection H as _ <- _. lia.
  - destruct st;
      repeat match type of H with
             | (if ?b then _ else _) = _ => destruct b
             end;
      try discriminate; apply IH in H; lia.
Qed.

(** Reading on after a text the automaton has read. *)
Lemma noun_len_app m t : forall st pos best st' pos' best',
  noun_run st pos best m = Some (st', pos', best') ->
  Re.noun_len st pos best (m ++ t) = Re.noun_len st' pos' best' t.
Proof.
  induction m as [|c m IH]; intros st pos best st' pos' best' H; simpl in *.
  - injection H as <- <- <-. reflexivity.
  - destruct st;
      repeat match type of H with
             | (if ?b then _ else _) = _ => destruct b
             end;
      try discriminate; apply IH; assumption.
Qed.

(** A match of length [n] is the initial [best], or the automaton reads
    the first [n - pos] characters and ends inside a word. *)
Lemma noun_len_run s : forall st pos best n,
  Re.noun_len st pos best s = Some n ->
  best = Some n
  \/ ((pos <= n)%nat
      /\ exists b, noun_run st pos best (Py.prefix_of (n - pos) s)
                   = Some (Re.InLower, n, b)).
Proof.
  induction s as [|c s IH]; intros st pos best n H.
  - simpl in H. destruct st; auto.
    injection H as <-. right. split; [lia|].
    rewrite Nat.sub_diag. simpl. eauto.
  - assert (Hstep : forall st1 best1,
              Re.noun_len st1 (S pos) best1 s = Some n ->
              noun_run st pos best (String c (Py.prefix_of (n - S pos) s))
              = noun_run st1 (S pos) best1 (Py.prefix_of (n - S pos) s) ->
              best1 = Some n
              \/ ((pos <= n)%nat
                  /\ exists b, noun_run st pos best (Py.prefix_of (n - pos) (String c s))
                               = Some (Re.InLower, n, b))).
    { intros st1 best1 H1 Hrun. destruct (IH _ _ _ _ H1) as [Hb|[Hle [b Hb]]]; [auto|].
      right. split; [lia|]. exists b.
      replace (n - pos)%nat with (S (n - S pos)) by lia.
      simpl Py.prefix_of. rewrite Hrun. exact Hb. }
    assert (Hhere : Some pos = Some n ->
              st = Re.InLower ->
              (pos <= n)%nat
              /\ exists b, noun_run st pos best (Py.prefix_of (n - pos) (String c s))
                           = Some (Re.InLower, n, b)).
    { intros E ->. injection E as <-. split; [lia|].
      rewrite Nat.sub_diag. simpl. eauto. }
    simpl in H. destruct st.
    + destruct (Py.isupper c) eqn:Eu; [|auto].
      apply (Hstep _ _ H). simpl. rewrite Eu. reflexivity.
    + destruct (Py.islower c) eqn:El; [|auto].
      apply (Hstep _ _ H). simpl. rewrite El. reflexivity.
    + destruct (Py.islower c) eqn:El.
      * apply (Hstep _ _ H). simpl. rewrite El. reflexivity.
      * destruct (Py.isspace c) eqn:Es.
        -- destruct (Hstep Re.InSpace (Some pos) H) as [E|R]; [|auto|auto].
           simpl. rewrite El, Es. reflexivity.
        -- destruct (Py.isword c); auto.
    + destruct (Py.isspace c) eqn:Es.
      * apply (Hstep _ _ H). simpl. rewrite Es. reflexivity.
      * destruct (Py.isupper c) eqn:Eu; [|auto].
        apply (Hstep _ _ H). simpl. rewrite Es, Eu. reflexivity.
Qed.

Lemma findall_proper_nouns_eq pw skip c s :
  Re.findall_proper_nouns pw skip (String c s)
  = match skip with
    | S k => Re.findall_proper_nouns (Py.isword c) k s
    | O =>
        match (if pw then None else Re.noun_len Re.WantUpper 0 None (String c s)) with
        | Some n => Py.prefix_of n (String c s)
                    :: Re.findall_proper_nouns (Py.isword c) (n - 1) s
        | None => Re.findall_proper_nouns (Py.isword c) 0 s
        end
    end.
Proof. reflexivity. Qed.

(** Every proper noun found is a run of capitalised words. *)
Lemma findall_proper_nouns_are_nouns s : forall pw skip name,
  In name (Re.findall_proper_nouns pw skip s) -> is_noun name.
Proof.
  induction s as [|c s IH]; intros pw skip name H; [contradiction|].
  rewrite findall_proper_nouns_eq in H.
  destruct skip as [|k]; [|eapply IH; eassumption].
  destruct (if pw then None else Re.noun_len Re.WantUpper 0 None (String c s))
    as [n|] eqn:E; [|eapply IH; eassumption].
  destruct H as [<-|H]; [|eapply IH; eassumption].
  destruct pw; [discriminate|].
  destruct (noun_len_run _ _ _ _ _ E) as [?|[_ [b Hb]]]; [discriminate|].
  rewrite Nat.sub_0_r in Hb. exists b.
  pose proof (noun_run_pos _ _ _ _ _ _ _ Hb) as Hn. simpl in Hn.
  rewrite <- Hn. exact Hb.
Qed.

Lemma findall_proper_nouns_skip m : forall pw k t,
  Re.findall_proper_nouns pw (String.length m + k) (m ++ t)
  = Re.findall_proper_nouns (last_is_word pw m) k t.
Proof.
  induction m as [|c m IH]; intros pw k t; [reflexivity|].
  simpl String.length. simpl append. rewrite findall_proper_nouns_eq. simpl. apply IH.
Qed.

(** The proper nouns of a text that starts with a run of capitalised
    words: the first one is found at the start, as far as the automaton
    reads on into the rest of the text. *)
Lemma findall_after_noun name t b k :
  noun_run Re.WantUpper 0 None name = Some (Re.InLower, String.length name, b) ->
  Re.noun_len Re.InLower (String.length name) b t = Some (k + String.length name)%nat ->
  Re.findall_proper_nouns false 0 (name ++ t)
  = (name ++ Py.prefix_of k t)
    :: Re.findall_proper_nouns (last_is_word false name) k t.
Proof.
  intros Hrun Hlen.
  pose proof (noun_len_app name t _ _ _ _ _ _ Hrun) as Happ. rewrite Hlen in Happ.
  destruct name as [|c0 name']; [discriminate|].
  change ((String c0 name' ++ t)%string) with (String c0 (name' ++ t)) in *.
  rewrite findall_proper_nouns_eq. cbv iota. rewrite Happ.
  apply f_equal2.
  - exact (prefix_of_app (String c0 name') t k).
  - simpl String.length.
    replace (k + S (String.length name') - 1)%nat with (String.length name' + k)%nat by lia.
    exact (findall_proper_nouns_skip name' (Py.isword c0) k t).
Qed.

(** For a run of capitalised words [name] and a fixed continuation [t]:
    the proper nouns of [name ++ t] are the single noun [name ++ t'],
    where [t'] is the part of [t] the match reads. *)
Ltac single_noun name t k :=
  let b := fresh "b" in
  let Hb := fresh "Hb" in
  let pw := fresh "pw" in
  intros [b Hb];
  rewrite (findall_after_noun name t b k Hb) by reflexivity;
  apply f_equal2;
  [ try reflexivity
  | generalize (last_is_word false name); intros pw; destruct pw; reflexivity ].

Lemma nouns_of_noun name :
  is_noun name -> Re.findall_proper_nouns false 0 name = [name].
Proof.
  intros H. rewrite <- (append_empty_r name) at 1. revert H.
  single_noun name "" 0%nat.
  apply append_empty_r.
Qed.

Lemma nouns_chancellor_germany name :
  is_noun name ->
  Re.findall_proper_nouns false 0 (name ++ " Chancellor Germany")
  = [name ++ " Chancellor Germany"].
Proof. single_noun name " Chancellor Germany" 19%nat. Qed.

Lemma nouns_book_autobiography name :
  is_noun name ->
  Re.findall_proper_nouns false 0 (name ++ " book autobiography") = [name].
Proof. single_noun name " book autobiography" 0%nat. apply append_empty_r. Qed.

Lemma nouns_bundeskanzler_deutschland name :
  is_noun name ->
  Re.findall_proper_nouns false 0 (name ++ " Bundeskanzler Deutschland")
  = [name ++ " Bundeskanzler Deutschland"].
Proof. single_noun name " Bundeskanzler Deutschland" 26%nat. Qed.

Lemma nouns_buch_autobiografie name :
  is_noun name ->
  Re.findall_proper_nouns false 0 (name ++ " Buch Autobiografie")
  = [name ++ " Buch Autobiografie"].
Proof. single_noun name " Buch Autobiografie" 19%nat. Qed.

Lemma nouns_buch_years name :
  is_noun name ->
  Re.findall_proper_nouns false 0 (name ++ " Buch 2024 2025") = [name ++ " Buch"].
Proof. single_noun name " Buch 2024 2025" 5%nat. Qed.

(** ** The pattern of years *)

Lemma findall_years_eq pw skip c s :
  Re.findall_years pw skip (String c s)
  = match skip with
    | S k => Re.findall_years (Py.isword c) k s
    | O =>
        match (if pw then None else Re.year_at (String c s)) with
        | Some y => y :: Re.findall_years (Py.isword c) 3 s
        | None => Re.findall_years (Py.isword c) 0 s
        end
    end.
Proof. reflexivity. Qed.

Lemma findall_years_values s : forall pw skip y,
  In y (Re.findall_years pw skip s) -> y = "2024" \/ y = "2025" \/ y = "2026".
Proof.
  induction s as [|c s IH]; intros pw skip y H; [contradiction|].
  rewrite findall_years_eq in H.
  destruct skip as [|k]; [|eapply IH; eassumption].
  destruct (if pw then None else Re.year_at (String c s)) as [y'|] eqn:E;
    [|eapply IH; eassumption].
  destruct H as [<-|H]; [|eapply IH; eassumption].
  destruct pw; [discriminate|].
  unfold Re.year_at in E.
  destruct (String.eqb (Py.prefix_of 4 (String c s)) "2024") eqn:E4.
  { apply String.eqb_eq in E4. destruct (_ && _); [|discriminate].
    injection E as <-. auto. }
  destruct (String.eqb (Py.prefix_of 4 (String c s)) "2025") eqn:E5.
  { apply String.eqb_eq in E5. destruct (_ && _); [|discriminate].
    injection E as <-. auto. }
  destruct (String.eqb (Py.prefix_of 4 (String c s)) "2026") eqn:E6.
  { apply String.eqb_eq in E6. destruct (_ && _); [|discriminate].
    injection E as <-. auto. }
  discriminate.
Qed.

(** ** The final loop of the expansion *)

Lemma mem_In q seen : mem q seen = true <-> In q seen.
Proof.
  unfold mem. rewrite existsb_exists. split.
  - intros [x [Hx E]]. apply String.eqb_eq in E. subst. assumption.
  - intros H. exists q. split; [assumption | apply String.eqb_refl].
Qed.

Lemma unique_loop_In queries : forall seen q,
  In q (unique_loop queries seen) ->
  In q queries /\ ~ In q seen /\ 2 < Py.len q.
Proof.
  induction queries as [|x queries IH]; intros seen q H; simpl in H; [contradiction|].
  destruct (negb (mem x seen) && (2 <? Py.len x)) eqn:E.
  - apply andb_true_iff in E. destruct E as [E1 E2].
    apply negb_true_iff in E1. apply Z.ltb_lt in E2.
    destruct H as [<-|H].
    + split; [left; reflexivity|]. split; [|assumption].
      intros Hs. apply mem_In in Hs. congruence.
    + destruct (IH _ _ H) as [H1 [H2 H3]]. split; [right; assumption|].
      split; [|assumption]. intros Hs. apply H2. right. assumption.
  - destruct (IH _ _ H) as [H1 [H2 H3]]. auto with datatypes.
Qed.

Lemma unique_loop_NoDup queries : forall seen, NoDup (unique_loop queries seen).
Proof.
  induction queries as [|x queries IH]; intros seen; simpl; [constructor|].
  destruct (negb (mem x seen) && (2 <? Py.len x)); [|apply IH].
  constructor; [|apply IH].
  intros H. apply unique_loop_In in H. destruct H as [_ [H _]].
  apply H. left. reflexivity.
Qed.

Lemma In_firstn_S {A} n (l : list A) x : In x (firstn n l) -> In x (firstn (S n) l).
Proof.
  revert n; induction l as [|y l IH]; intros [|n]; simpl; try tauto.
  intros [->|H]; [left; reflexivity | right; apply IH; exact H].
Qed.

(** A query among the first [n] derived ones that survives the loop is
    among the first [n] of its output. *)
Lemma unique_loop_early queries : forall n seen q,
  In q (firstn n queries) -> ~ In q seen -> 2 < Py.len q ->
  In q (firstn n (unique_loop queries seen)).
Proof.
  induction queries as [|x queries IH]; intros n seen q Hin Hseen Hlen.
  - destruct n; contradiction.
  - destruct n as [|n]; [contradiction|].
    simpl in Hin. simpl unique_loop.
    destruct (string_dec x q) as [->|Hne].
    + assert (E : negb (mem q seen) && (2 <? Py.len q) = true).
      { apply andb_true_iff. split; [|apply Z.ltb_lt; assumption].
        apply negb_true_iff. destruct (mem q seen) eqn:M; [|reflexivity].
        apply mem_In in M. contradiction. }
      rewrite E. left. reflexivity.
    + destruct Hin as [Hin|Hin]; [contradiction|].
      destruct (negb (mem x seen) && (2 <? Py.len x)).
      * right. apply IH; try assumption.
        intros [H|H]; [congruence | contradiction].
      * apply In_firstn_S. apply IH; assumption.
Qed.

(** ** Where the claim stands among its own derived queries *)

Lemma derived_not_de claim language :
  String.eqb language "de" = false ->
  derived_queries claim language = derived_queries claim "en".
Proof.
  intros L. unfold derived_queries.
  f_equal; [|f_equal].
  - apply flat_map_ext. intros name. unfold name_queries. rewrite L. reflexivity.
  - unfold merz_queries. rewrite L. reflexivity.
  - apply map_ext. intros d. unfold date_query. rewrite L. reflexivity.
Qed.

Ltac by_computation L H :=
  first [ apply String.eqb_eq in L; subst
        | rewrite (derived_not_de _ _ L) in H |- * ];
  vm_compute in H |- *; exact H.

Lemma claim_is_early claim language :
  In claim (derived_queries claim language) ->
  In claim (firstn 7 (derived_queries claim language)).
Proof.
  intros Hin. pose proof Hin as Hin0.
  unfold derived_queries in Hin.
  apply in_app_or in Hin. destruct Hin as [Hin|Hin];
    [|apply in_app_or in Hin; destruct Hin as [Hin|Hin]].
  - apply in_flat_map in Hin. destruct Hin as [name [Hname Hq]].
    pose proof (findall_proper_nouns_are_nouns _ _ _ _ Hname) as Hnoun.
    unfold name_queries in Hq.
    destruct (3 <? Py.len name) eqn:Hlen; [|contradiction].
    destruct Hq as [<-|Hq].
    + (* the claim is itself the noun *)
      unfold derived_queries. rewrite (nouns_of_noun name Hnoun).
      cbn [flat_map]. unfold name_queries at 1. rewrite Hlen.
      left. reflexivity.
    + assert (Hcontra : forall t full,
                  t <> "" ->
                  (is_noun name ->
                   Re.findall_proper_nouns false 0 (name ++ t) = [name ++ full]) ->
                  full <> "" ->
                  name ++ t = claim -> False).
      { intros t full Ht Hnouns Hfull <-.
        rewrite (Hnouns Hnoun) in Hname. destruct Hname as [E|[]].
        symmetry in E. apply append_longer in E. contradiction. }
      destruct (String.eqb language "de") eqn:L.
      * apply in_app_or in Hq. destruct Hq as [Hq|Hq];
          [|apply in_app_or in Hq; destruct Hq as [Hq|Hq]].
        -- destruct (any_in _ _); [|contradiction].
           destruct Hq as [Hq|[<-|[]]].
           ++ exfalso. revert Hq.
              apply (Hcontra " Bundeskanzler Deutschland" " Bundeskanzler Deutschland");
                [discriminate | apply nouns_bundeskanzler_deutschland | discriminate].
           ++ by_computation L Hin0.
        -- destruct (any_in _ _); [|contradiction].
           destruct Hq as [Hq|[Hq|[]]]; exfalso; revert Hq.
           ++ apply (Hcontra " Buch Autobiografie" " Buch Autobiografie");
                [discriminate | apply nouns_buch_autobiografie | discriminate].
           ++ apply (Hcontra " Buch 2024 2025" " Buch");
                [discriminate | apply nouns_buch_years | discriminate].
        -- destruct (Py.contains _ _); [|contradiction].
           destruct Hq as [<-|[]]. by_computation L Hin0.
      * apply in_app_or in Hq. destruct Hq as [Hq|Hq].
        -- destruct (Py.contains _ _); [|contradiction].
           destruct Hq as [Hq|[<-|[]]].
           ++ exfalso. revert Hq.
              apply (Hcontra " Chancellor Germany" " Chancellor Germany");
                [discriminate | apply nouns_chancellor_germany | discriminate].
           ++ by_computation L Hin0.
        -- destruct (any_in _ _) eqn:B; [|contradiction].
           destruct Hq as [<-|[]].
           unfold derived_queries. rewrite (nouns_book_autobiography name Hnoun).
           cbn [flat_map]. unfold name_queries at 1. rewrite Hlen, L, B.
           destruct (Py.contains "chancellor" _); cbn; auto 6.
  - unfold merz_queries in Hin.
    destruct (String.eqb language "de") eqn:L;
      (destruct (Py.contains _ _); [|contradiction]);
      destruct Hin as [<-|[<-|[]]]; by_computation L Hin0.
  - apply in_map_iff in Hin. destruct Hin as [d [<- Hd]].
    apply findall_years_values in Hd. unfold date_query in *.
    destruct (String.eqb language "de") eqn:L;
      destruct Hd as [ -> | [ -> | -> ] ]; by_computation L Hin0.
Qed.

Lemma NoDup_subseq {A} (l1 l2 : list A) : subseq l1 l2 -> NoDup l2 -> NoDup l1.
Proof.
  induction 1 as [|x l1 l2 H IH|x l1 l2 H IH]; intros Hnd.
  - constructor.
  - inversion Hnd; auto.
  - inversion Hnd as [|y l Hx Hl]; subst. constructor; [|auto].
    intros Hin. apply Hx. eapply subseq_In; eassumption.
Qed.

Lemma count_occ_once (l : list string) q :
  NoDup l -> In q l -> count_occ string_dec l q = 1%nat.
Proof.
  intros Hnd Hin.
  pose proof (proj1 (NoDup_count_occ string_dec l) Hnd q).
  pose proof (proj1 (count_occ_In string_dec l q) Hin). lia.
Qed.

Lemma executed_queries_cons claim language :
  executed_queries claim language
  = claim :: firstn 7 (_extract_all_search_queries claim language).
Proof. unfold executed_queries. rewrite search_queries_cons. reflexivity. Qed.

(** C10.  The expansion holds each query once and no query shorter than
    3 characters; the claim is put in front of it afterwards, unfiltered.
    So for every claim the first executed query is the claim, whatever
    its length, and when the expansion holds a query equal to the claim,
    the query list and the executed query list hold that string twice. *)
Theorem claim_is_prepended_after_deduplication claim language :
  NoDup (_extract_all_search_queries claim language)
  /\ Forall (fun q => 2 < Py.len q) (_extract_all_search_queries claim language)
  /\ search_queries claim language = claim :: _extract_all_search_queries claim language
  /\ hd_error (executed_queries claim language) = Some claim
  /\ (In claim (_extract_all_search_queries claim language) ->
      count_occ string_dec (search_queries claim language) claim = 2%nat
      /\ count_occ string_dec (executed_queries claim language) claim = 2%nat).
Proof.
  split; [apply unique_loop_NoDup|].
  split; [rewrite Forall_forall; intros q Hq; apply unique_loop_In in Hq; tauto|].
  split; [apply search_queries_cons|].
  split; [rewrite executed_queries_cons; reflexivity|].
  intros Hin.
  rewrite search_queries_cons, executed_queries_cons.
  rewrite !count_occ_cons_eq by reflexivity.
  pose proof (unique_loop_NoDup (derived_queries claim language) []) as Hnd.
  split; f_equal.
  - apply count_occ_once; assumption.
  - apply count_occ_once.
    + eapply NoDup_subseq; [apply subseq_firstn | exact Hnd].
    + destruct (unique_loop_In _ _ _ Hin) as [Hd [_ Hlen]].
      apply unique_loop_early; [apply claim_is_early; assumption | tauto | assumption].
Qed.

Lemma claim_is_prepended_after_deduplication_witness :
  In "Berlin" (_extract_all_search_queries "Berlin" "en")
  /\ count_occ string_dec (search_queries "Berlin" "en") "Berlin" = 2%nat
  /\ count_occ string_dec (executed_queries "Berlin" "en") "Berlin" = 2%nat.
Proof.
  assert (H : In "Berlin" (_extract_all_search_queries "Berlin" "en"))
    by (left; reflexivity).
  split; [exact H|].
  apply (proj2 (proj2 (proj2 (proj2
           (claim_is_prepended_after_deduplication "Berlin" "en"))))).
  exact H.
Defined.

(** * Further properties of the pipeline *)

(** ** The status of a verdict *)

Lemma parsed_status_is_valid self response_text verdict :
  _parse_veracity_response self response_text = Returns verdict ->
  is_valid_status (status verdict) = true.
Proof.
  unfold _parse_veracity_response.
  destruct (decode_response response_text) as [[data|failure]|e] eqn:E; simpl;
    [| |discriminate].
  - destruct (extract_fields self data) as [v|e] eqn:F.
    + intros H; injection H as <-. unfold extract_fields in F.
      destruct (get data "status" _) as [st|]; [|discriminate]. cbn [bind] in F.
      destruct (get data "justification" _) as [j|]; [|discriminate]. cbn [bind] in F.
      destruct (get data "verification_method" _) as [m|]; [|discriminate]. cbn [bind] in F.
      destruct (get data "sources" _) as [srcs|]; [|discriminate]. cbn [bind] in F.
      match type of F with
      | bind ?m _ = _ => destruct m as [l|]; [|discriminate]
      end.
      cbn [bind] in F. injection F as <-. cbn [status].
      destruct (is_valid_status st) eqn:V; [exact V | reflexivity].
    + intros H; injection H as <-. reflexivity.
  - intros H; injection H as <-.
    rewrite (decode_response_failure _ _ E). reflexivity.
Qed.

Lemma analyzer_status_is_valid w self claim language :
  is_valid_status (status (fst (analyze_veracity w self claim language))) = true.
Proof.
  unfold analyze_veracity.
  destruct (enabled self); cbn [negb]; [|reflexivity].
  destruct (_build_search_context self _ language) as [search_context self1].
  destruct (get_veracity_prompt w claim _ search_context language) as [prompt|e];
    [|reflexivity].
  cbn [bind].
  destruct (_make_api_call w prompt true) as [response_text|e]; [|reflexivity].
  cbn [bind].
  destruct (parse_returns self1 response_text) as [verdict Hv]. rewrite Hv.
  apply (parsed_status_is_valid _ _ _ Hv).
Qed.

(** X1.  Whatever the searches return and whatever the model answers,
    the status of the verdict of [analyze_veracity] is one of the four
    strings Factually Correct, Untruth, Misleading, Unverifiable. *)
Theorem verdict_status_is_valid w self claim language :
  exists s, status (fst (analyze_veracity w self claim language)) = PyStr s
            /\ In s valid_statuses.
Proof.
  pose proof (analyzer_status_is_valid w self claim language) as H.
  destruct (status _) as [| | | |s| |]; try discriminate.
  exists s. split; [reflexivity|].
  unfold is_valid_status in H. apply existsb_exists in H.
  destruct H as [x [Hx E]]. apply String.eqb_eq in E. subst. exact Hx.
Qed.

(** ** Deduplication by url *)

Lemma unique_by_url_spec results : forall seen_urls,
  let u := unique_by_url results seen_urls in
  NoDup (map url u)
  /\ (forall r, In r u -> ~ In (url r) seen_urls)
  /\ subseq u results
  /\ (forall r, In r results -> In (url r) seen_urls \/ In (url r) (map url u)).
Proof.
  induction results as [|x results IH]; intros seen; simpl.
  - split; [constructor|]. split; [intros r []|]. split; [constructor | intros r []].
  - destruct (negb (mem (url x) seen)) eqn:M.
    + destruct (IH (url x :: seen)) as [H1 [H2 [H3 H4]]].
      apply negb_true_iff in M.
      assert (Hx : ~ In (url x) seen)
        by (intros Hin; apply mem_In in Hin; congruence).
      simpl. split; [|split; [|split]].
      * constructor; [|exact H1]. intros Hin. apply in_map_iff in Hin.
        destruct Hin as [r [E Hr]]. apply (H2 r Hr). left. symmetry. exact E.
      * intros r [<-|Hr]; [exact Hx|]. intros Hin. apply (H2 r Hr). right. exact Hin.
      * constructor 3. exact H3.
      * intros r [<-|Hr]; [right; left; reflexivity|].
        destruct (H4 r Hr) as [[E|Hs]|Hu]; auto.
    + destruct (IH seen) as [H1 [H2 [H3 H4]]].
      apply negb_false_iff in M. apply mem_In in M.
      split; [exact H1|]. split; [exact H2|]. split.
      * constructor. exact H3.
      * intros r [<-|Hr]; [left; exact M | auto].
Qed.

Lemma unique_by_url_fixed results : forall seen_urls,
  NoDup (map url results) ->
  (forall r, In r results -> ~ In (url r) seen_urls) ->
  unique_by_url results seen_urls = results.
Proof.
  induction results as [|x results IH]; intros seen Hnd Hseen; [reflexivity|].
  simpl. inversion Hnd as [|u l Hx Hl]; subst.
  assert (M : mem (url x) seen = false).
  { destruct (mem (url x) seen) eqn:M; [|reflexivity].
    apply mem_In in M. exfalso. apply (Hseen x); [left; reflexivity | exact M]. }
  rewrite M. simpl. f_equal. apply IH; [exact Hl|].
  intros r Hr [E|Hin].
  - apply Hx. rewrite E. apply in_map. exact Hr.
  - apply (Hseen r); [right; exact Hr | exact Hin].
Qed.

(** X2.  The deduplication of the gathered results keeps, in their
    order, the results whose url was not seen before: the urls of its
    output are pairwise different, every url of the input is still
    there, a result whose url does not occur earlier in the input is
    kept, and deduplicating a second time changes nothing. *)
Theorem deduplication_by_url results :
  let u := unique_by_url results [] in
  NoDup (map url u)
  /\ subseq u results
  /\ (forall r, In r results -> In (url r) (map url u))
  /\ (forall before r after,
        results = (before ++ r :: after)%list ->
        ~ In (url r) (map url before) -> In r u)
  /\ unique_by_url u [] = u.
Proof.
  intros u. destruct (unique_by_url_spec results []) as [H1 [H2 [H3 H4]]].
  fold u in H1, H2, H3, H4.
  split; [exact H1|]. split; [exact H3|]. split; [|split].
  - intros r Hr. destruct (H4 r Hr) as [[]|H]. exact H.
  - intros before r after -> Hfirst. subst u. clear - Hfirst.
    cut (forall seen, ~ In (url r) seen ->
                      (forall x, In x (map url before) -> x <> url r) ->
                      In r (unique_by_url (before ++ r :: after) seen)).
    { intros C. apply C; [intros [] |]. intros x Hx E. rewrite E in Hx. contradiction. }
    clear Hfirst. induction before as [|b before IH]; intros seen Hs Hb; simpl.
    + destruct (mem (url r) seen) eqn:M; [apply mem_In in M; contradiction|].
      left. reflexivity.
    + destruct (negb (mem (url b) seen)).
      * right. apply IH.
        -- intros Hin. apply in_inv in Hin. destruct Hin as [E|Hin]; [|contradiction].
           apply (Hb (url b)); [left; reflexivity | exact E].
        -- intros x Hx. apply Hb. right. exact Hx.
      * apply IH; [exact Hs|]. intros x Hx. apply Hb. right. exact Hx.
  - apply unique_by_url_fixed; [exact H1 | intros r _ []].
Qed.

Lemma deduplication_by_url_witness :
  In wall_item (unique_by_url [wall_item; berlin_item; wall_item] []).
Proof.
  apply (proj1 (proj2 (proj2 (proj2
           (deduplication_by_url [wall_item; berlin_item; wall_item]))))
           [] wall_item [berlin_item; wall_item]);
    [reflexivity | intros []].
Defined.

(** ** What the ranker returns *)

Lemma slice_to_subseq {A} (l : list A) n : subseq (Py.slice_to l n) l.
Proof. unfold Py.slice_to. destruct (0 <=? n); apply subseq_firstn. Qed.

Lemma subseq_length {A} (l1 l2 : list A) :
  subseq l1 l2 -> (length l1 <= length l2)%nat.
Proof. induction 1; simpl; lia. Qed.

Lemma filter_all {A} (p : A -> bool) l :
  Forall (fun x => p x = true) l -> filter p l = l.
Proof.
  induction 1 as [|x l Hx Hl IH]; simpl; [reflexivity|].
  rewrite Hx, IH. reflexivity.
Qed.

Lemma sort_desc_sorted_id {A} (key : A -> Z) l :
  StronglySorted (desc key) l -> sort_desc key l = l.
Proof.
  induction 1 as [|x l Hs IH Hx]; simpl; [reflexivity|].
  rewrite IH. destruct l as [|y l']; [reflexivity|].
  simpl. inversion Hx as [|y' l'' Hy _]; subst. unfold desc in Hy.
  destruct (key y <=? key x) eqn:E; [reflexivity|]. apply Z.leb_gt in E. lia.
Qed.

(** What the closed form of the ranker gives for every cap. *)
Lemma ranked_facts results claim max_results :
  let out := _filter_search_results results claim max_results in
  Forall (fun x => exists r, In r results /\ passes_gates r = true
                             /\ x = pop_relevance_score r) out
  /\ StronglySorted (desc (score_for claim)) out
  /\ subseq (map url out)
            (map url (sort_desc get_relevance_score
                        (map (fun r => set_relevance_score r (score_for claim r))
                             (filter passes_gates results)))).
Proof.
  intros out. subst out. rewrite filter_search_results_closed.
  set (tag := fun r => set_relevance_score r (score_for claim r)).
  set (S := sort_desc get_relevance_score (map tag (filter passes_gates results))).
  assert (HS : forall x, In x S -> exists r, In r results /\ passes_gates r = true
                                              /\ x = tag r).
  { intros x Hx. apply (Permutation_in _ (sort_desc_perm _ _)) in Hx.
    apply in_map_iff in Hx. destruct Hx as [r [<- Hr]].
    apply filter_In in Hr. exists r. tauto. }
  split; [|split].
  - rewrite Forall_forall. intros y Hy.
    apply (subseq_In _ _ _ (slice_to_subseq _ _)) in Hy.
    apply in_map_iff in Hy. destruct Hy as [x [<- Hx]].
    destruct (HS x Hx) as [r [H1 [H2 ->]]]. exists r. auto.
  - assert (Hsorted : StronglySorted (desc (score_for claim)) (map pop_relevance_score S)).
    { apply (StronglySorted_map (desc get_relevance_score)); [|apply sort_desc_sorted].
      intros a b Ha Hb. destruct (HS a Ha) as [ra [_ [_ ->]]].
      destruct (HS b Hb) as [rb [_ [_ ->]]]. trivial. }
    unfold Py.slice_to. destruct (0 <=? max_results);
      apply StronglySorted_firstn; exact Hsorted.
  - eapply subseq_trans; [apply subseq_map, slice_to_subseq|].
    rewrite map_map. apply subseq_refl.
Qed.

(** X3.  The ranker hands back input items only: every returned item is
    an input item that passes both length gates, with the scratch key
    [_relevance_score] removed, also when the input item carried such a
    key; no returned item carries one. *)
Theorem ranker_returns_inputs_without_scratch results claim max_results :
  Forall (fun x => _relevance_score x = None
                   /\ exists r, In r results /\ passes_gates r = true
                                /\ x = pop_relevance_score r)
         (_filter_search_results results claim max_results).
Proof.
  destruct (ranked_facts results claim max_results) as [H _].
  eapply Forall_impl; [|exact H].
  intros x [r [H1 [H2 ->]]]. split; [reflexivity | eauto].
Qed.

Lemma pop_tag_id claim x :
  _relevance_score x = None ->
  pop_relevance_score (set_relevance_score x (score_for claim x)) = x.
Proof. destruct x as [t u s a sc]. simpl. intros ->. reflexivity. Qed.

(** X4.  Ranking is idempotent: for every cap [max_results >= 0],
    ranking the output of the ranker again, for the same claim and cap,
    returns it unchanged. *)
Theorem ranking_is_idempotent results claim max_results :
  0 <= max_results ->
  _filter_search_results (_filter_search_results results claim max_results)
                         claim max_results
  = _filter_search_results results claim max_results.
Proof.
  intros Hcap.
  destruct (ranked_facts results claim max_results) as [Hin [Hsorted _]].
  set (out := _filter_search_results results claim max_results) in *.
  assert (Hlen : (length out <= Z.to_nat max_results)%nat).
  { subst out. rewrite filter_search_results_closed, slice_to_nonneg by assumption.
    apply firstn_le_length. }
  rewrite (filter_search_results_closed out).
  rewrite filter_all.
  2:{ eapply Forall_impl; [|exact Hin]. intros x [r [_ [Hg ->]]]. exact Hg. }
  rewrite sort_desc_sorted_id.
  2:{ apply (StronglySorted_map (desc (score_for claim))); [|exact Hsorted].
      intros a b _ _ H. exact H. }
  rewrite map_map, slice_to_nonneg by assumption.
  rewrite firstn_all2 by (rewrite length_map; exact Hlen).
  rewrite <- (map_id out) at 2. apply map_ext_in.
  intros x Hx. apply pop_tag_id.
  rewrite Forall_forall in Hin. destruct (Hin x Hx) as [r [_ [_ ->]]]. reflexivity.
Qed.

Lemma ranking_is_idempotent_witness :
  _filter_search_results
    (_filter_search_results [weather_item; wall_item; berlin_item] berlin_claim 2)
    berlin_claim 2
  = _filter_search_results [weather_item; wall_item; berlin_item] berlin_claim 2.
Proof.
  apply (ranking_is_idempotent [weather_item; wall_item; berlin_item] berlin_claim 2).
  lia.
Defined.

(** ** The gathered evidence *)

Lemma search_loop_In w language queries : forall i all_search_results r,
  In r (search_loop w language i queries all_search_results) ->
  In r all_search_results
  \/ exists k query,
       nth_error queries k = Some query
       /\ In r (search w (i + Z.of_nat k) query RESULTS_PER_QUERY language).
Proof.
  induction queries as [|q queries IH]; intros i acc r H; simpl in H; [auto|].
  apply IH in H. destruct H as [H|[k [query [Hk Hr]]]].
  - destruct (is_nil (search w i q RESULTS_PER_QUERY language)); [auto|].
    apply in_app_or in H. destruct H as [H|H]; [auto|].
    right. exists 0%nat, q. split; [reflexivity|].
    rewrite Z.add_0_r. exact H.
  - right. exists (S k), query. split; [exact Hk|].
    replace (i + Z.of_nat (S k)) with (i + 1 + Z.of_nat k) by lia. exact Hr.
Qed.

Lemma executed_queries_length claim language :
  (length (executed_queries claim language) <= 8)%nat.
Proof.
  rewrite executed_queries_cons. cbn [length].
  pose proof (firstn_le_length 7 (_extract_all_search_queries claim language)). lia.
Qed.

Lemma passes_gates_url r : passes_gates r = true -> url r <> "".
Proof.
  unfold passes_gates. intros H. apply andb_true_iff in H. destruct H as [_ H].
  apply negb_true_iff, orb_false_iff in H. destruct H as [H _].
  destruct (url r); [discriminate | discriminate].
Qed.

Lemma gathered_evidence_facts w self claim language :
  let evidence := _perform_web_searches w self claim language in
  (length evidence <= 5)%nat
  /\ NoDup (map url evidence)
  /\ Forall (fun x =>
               passes_gates x = true
               /\ _relevance_score x = None
               /\ exists i query r,
                    1 <= i <= 8
                    /\ nth_error (executed_queries claim language) (Z.to_nat (i - 1))
                       = Some query
                    /\ In r (search w i query RESULTS_PER_QUERY language)
                    /\ x = pop_relevance_score r)
            evidence.
Proof.
  intros evidence. subst evidence. unfold _perform_web_searches.
  destruct (web_search_enabled self); cbn [negb];
    [|split; [simpl; lia | split; constructor]].
  set (all := search_loop w language 1 (executed_queries claim language) []).
  set (unique_results := unique_by_url all []).
  destruct (unique_by_url_spec all []) as [Hnd [_ [Hsub _]]].
  fold unique_results in Hnd, Hsub.
  destruct (ranked_facts unique_results claim MAX_FILTERED_RESULTS) as [Hin [_ Hurl]].
  split; [|split].
  - rewrite filter_search_results_closed, slice_to_nonneg by (unfold MAX_FILTERED_RESULTS; lia).
    apply firstn_le_length.
  - eapply NoDup_subseq; [exact Hurl|].
    eapply Permutation_NoDup;
      [apply Permutation_map, Permutation_sym, sort_desc_perm|].
    rewrite map_map. simpl.
    eapply NoDup_subseq; [apply subseq_map, subseq_filter | exact Hnd].
  - eapply Forall_impl; [|exact Hin].
    intros x [r [Hr [Hg ->]]]. split; [exact Hg|]. split; [reflexivity|].
    apply (subseq_In _ _ _ Hsub) in Hr.
    apply search_loop_In in Hr. destruct Hr as [[]|[k [query [Hk Hr]]]].
    exists (1 + Z.of_nat k), query, r.
    assert (Hlt : (k < length (executed_queries claim language))%nat)
      by (apply nth_error_Some; congruence).
    pose proof (executed_queries_length claim language).
    split; [lia|]. split; [|auto].
    replace (Z.to_nat (1 + Z.of_nat k - 1)) with k by lia. exact Hk.
Qed.

(** X5.  The evidence gathered for a claim is at most 5 items with
    pairwise different urls; each of them passes both length gates,
    carries no scratch score, and is a result of one of the at most 8
    searches that are run, the i-th search asking the i-th executed
    query for 3 results. *)
Theorem gathered_evidence_is_clean w self claim language :
  let evidence := _perform_web_searches w self claim language in
  (length evidence <= 5)%nat
  /\ NoDup (map url evidence)
  /\ Forall (fun x =>
               passes_gates x = true
               /\ _relevance_score x = None
               /\ exists i query r,
                    1 <= i <= 8
                    /\ nth_error (executed_queries claim language) (Z.to_nat (i - 1))
                       = Some query
                    /\ In r (search w i query RESULTS_PER_QUERY language)
                    /\ x = pop_relevance_score r)
            evidence.
Proof. apply gathered_evidence_facts. Qed.

(** ** The buffer across calls *)

(** X6.  The verdict of a call does not depend on what an earlier call
    left in the evidence buffer; and after a call on an enabled service
    the buffer is empty or holds the evidence gathered for this call. *)
Theorem stale_buffer_is_never_read w self stale claim language :
  fst (analyze_veracity w (set_current_search_results self stale) claim language)
  = fst (analyze_veracity w self claim language)
  /\ (enabled self = true ->
      let after := _current_search_results
                     (snd (analyze_veracity w (set_current_search_results self stale)
                                            claim language)) in
      after = [] \/ after = _perform_web_searches w self claim language).
Proof.
  unfold analyze_veracity.
  change (enabled (set_current_search_results self stale)) with (enabled self).
  change (_perform_web_searches w (set_current_search_results self stale) claim language)
    with (_perform_web_searches w self claim language).
  set (evidence := _perform_web_searches w self claim language).
  assert (E : _build_search_context (set_current_search_results self stale) evidence language
              = _build_search_context self evidence language).
  { unfold _build_search_context. destruct evidence; reflexivity. }
  rewrite E.
  pose proof (buffer_after_context self evidence language) as Hbuf.
  destruct (_build_search_context self evidence language) as [search_context self1].
  simpl in Hbuf.
  destruct (enabled self); cbn [negb]; [|split; [reflexivity | discriminate]].
  split; [reflexivity|]. intros _.
  destruct (get_veracity_prompt w claim _ search_context language) as [prompt|e];
    cbn [bind snd]; [|auto].
  destruct (_make_api_call w prompt true) as [response_text|e]; cbn [bind snd]; [|auto].
  destruct (_parse_veracity_response self1 response_text); cbn [snd]; auto.
Qed.

Lemma stale_buffer_is_never_read_witness :
  let after := _current_search_results
                 (snd (analyze_veracity failing_world
                         (set_current_search_results ready_service [weather_item])
                         berlin_claim "en")) in
  after = [] \/ after = _perform_web_searches failing_world ready_service berlin_claim "en".
Proof.
  apply (proj2 (stale_buffer_is_never_read failing_world ready_service [weather_item]
                  berlin_claim "en")).
  reflexivity.
Defined.

(** ** The urls of the sources *)

Lemma valid_sources_truthy l :
  Forall (fun s => truthy (source_url s) = true) (valid_sources l).
Proof.
  induction l as [|x l IH]; simpl; [constructor|].
  destruct x as [| | | | | |d]; try exact IH.
  destruct (dict_lookup d "url") as [u|] eqn:U; simpl.
  - destruct (truthy u) eqn:T; [|exact IH]. constructor; [exact T | exact IH].
  - exact IH.
Qed.

Lemma response_sources_truthy response_text :
  Forall (fun s => truthy (source_url s) = true) (response_sources response_text).
Proof.
  unfold response_sources.
  destruct (decode_response response_text) as [[data|]|]; try constructor.
  destruct (get data "sources" _) as [v|]; [|constructor].
  destruct v; try constructor. apply valid_sources_truthy.
Qed.

(** X7.  Every source of a verdict of [analyze_veracity] has a url that
    is truthy: for a string, not the empty string. *)
Theorem verdict_sources_have_urls w self claim language :
  Forall (fun s => truthy (source_url s) = true)
         (sources (fst (analyze_veracity w self claim language))).
Proof.
  unfold analyze_veracity.
  destruct (enabled self); cbn [negb]; [|constructor].
  pose proof (gathered_evidence_facts w self claim language) as [_ [_ Hev]].
  set (evidence := _perform_web_searches w self claim language) in *.
  pose proof (buffer_after_context self evidence language) as Hbuf.
  destruct (_build_search_context self evidence language) as [search_context self1].
  simpl in Hbuf.
  destruct (get_veracity_prompt w claim _ search_context language) as [prompt|e];
    cbn [bind]; [|constructor].
  destruct (_make_api_call w prompt true) as [response_text|e]; cbn [bind]; [|constructor].
  destruct (parse_returns self1 response_text) as [verdict Hv]. rewrite Hv. cbn [fst].
  destruct (parse_sources self1 response_text verdict Hv) as [->|[_ [_ Hall]]].
  - apply response_sources_truthy.
  - rewrite Hbuf in Hall. eapply Forall_impl; [|exact Hall].
    intros s [e [He ->]]. simpl.
    rewrite Forall_forall in Hev. destruct (Hev e He) as [Hg _].
    apply passes_gates_url in Hg. destruct (url e); [contradiction | reflexivity].
Qed.

(** ** Answers that decode but cannot be processed *)



(** ** Reconciliation at its edges *)

Lemma prefix_of_length n s : (String.length (Py.prefix_of n s) <= n)%nat.
Proof.
  revert s; induction n as [|n IH]; intros [|c s]; simpl; try lia.
  specialize (IH s). lia.
Qed.

Lemma prefix_of_startswith n s : Py.startswith (Py.prefix_of n s) s = true.
Proof.
  revert s; induction n as [|n IH]; intros [|c s]; simpl; try reflexivity.
  rewrite Ascii.eqb_refl. apply IH.
Qed.

(** X9.  Reconciliation with an empty evidence buffer returns no source,
    whatever the justification is; with evidence in the buffer it raises
    AttributeError exactly when the justification is not a string; and a
    source it returns carries the title and the url of an evidence item
    and the first 200 characters, at most, of its snippet. *)
Theorem reconciliation_edges self justification :
  (_current_search_results self = [] ->
   _auto_map_sources_from_results self justification = Returns [])
  /\ (_current_search_results self <> [] ->
      (_auto_map_sources_from_results self justification = Raises AttributeError
       <-> forall text, justification <> PyStr text))
  /\ (forall mapped,
        _auto_map_sources_from_results self justification = Returns mapped ->
        Forall (fun s => exists e cut,
                  In e (_current_search_results self)
                  /\ source_title s = PyStr (title e)
                  /\ source_url s = PyStr (url e)
                  /\ source_snippet s = PyStr cut
                  /\ Py.len cut <= 200
                  /\ Py.startswith cut (snippet e) = true)
               mapped).
Proof.
  split; [|split].
  - intros E. unfold _auto_map_sources_from_results. rewrite E. reflexivity.
  - intros Hne. split.
    + intros H text ->. rewrite auto_map_closed in H by assumption. discriminate.
    + intros Hnot. unfold _auto_map_sources_from_results.
      destruct (_current_search_results self); [congruence|]. cbn [is_nil].
      destruct justification; try reflexivity. exfalso. eapply Hnot. reflexivity.
  - intros mapped H. apply auto_map_from_evidence in H.
    eapply Forall_impl; [|exact H].
    intros s [e [He ->]]. exists e, (Py.prefix_of 200 (snippet e)).
    repeat split; try assumption.
    + pose proof (prefix_of_length 200 (snippet e)). unfold Py.len. lia.
    + apply prefix_of_startswith.
Qed.

Lemma reconciliation_edges_witness :
  _auto_map_sources_from_results ready_service (PyInt 7) = Returns []
  /\ _auto_map_sources_from_results (mkService true true [wall_item]) (PyInt 7)
     = Raises AttributeError.
Proof.
  split.
  - apply (proj1 (reconciliation_edges ready_service (PyInt 7))). reflexivity.
  - apply (proj2 (proj1 (proj2 (reconciliation_edges (mkService true true [wall_item])
                                                    (PyInt 7)))
                        ltac:(discriminate))).
    intros text. discriminate.
Defined.

(** ** The brace-balanced extract *)

Lemma drop_app_length m t : Re.drop (String.length m) (m ++ t) = t.
Proof. induction m as [|c m IH]; simpl; [destruct t; reflexivity | exact IH]. Qed.

Lemma append_assoc (a b c : string) : (a ++ b) ++ c = a ++ (b ++ c).
Proof. induction a as [|x a IH]; simpl; [|rewrite IH]; reflexivity. Qed.

Lemma find_split c s :
  find c s <> -1 ->
  exists before after,
    s = before ++ String c after
    /\ Z.of_nat (String.length before) = find c s
    /\ find c before = -1.
Proof.
  induction s as [|d s IH]; simpl; [congruence|].
  destruct (Ascii.eqb c d) eqn:E.
  - intros _. apply Ascii.eqb_eq in E. subst d. exists "", s. auto.
  - destruct (find c s =? -1) eqn:F; [congruence|]. intros _.
    apply Z.eqb_neq in F. destruct (IH F) as [before [after [-> [Hlen Hno]]]].
    exists (String d before), after. simpl. rewrite E, Hno. simpl.
    repeat split. lia.
Qed.

Lemma rfind_split c s :
  rfind c s <> -1 ->
  exists before after,
    s = before ++ String c after /\ Z.of_nat (String.length before) = rfind c s.
Proof.
  induction s as [|d s IH]; simpl; [congruence|].
  destruct (rfind c s =? -1) eqn:F; simpl.
  - destruct (Ascii.eqb c d) eqn:E; [|congruence]. intros _.
    apply Ascii.eqb_eq in E. subst d. exists "", s. auto.
  - intros _. apply Z.eqb_neq in F. destruct (IH F) as [before [after [-> Hlen]]].
    exists (String d before), after. simpl. split; [reflexivity | lia].
Qed.

Lemma balance_loop_split s : forall i brace_count in_string escape_next e,
  balance_loop s i brace_count in_string escape_next = Some e ->
  exists before after,
    s = before ++ String "}" after /\ e = i + Z.of_nat (String.length before) + 1.
Proof.
  induction s as [|c s IH]; intros i bc ins esc e H; simpl in H; [discriminate|].
  assert (Hrec : forall bc' ins' esc',
            balance_loop s (i + 1) bc' ins' esc' = Some e ->
            exists before after,
              String c s = before ++ String "}" after
              /\ e = i + Z.of_nat (String.length before) + 1).
  { intros bc' ins' esc' H'. destruct (IH _ _ _ _ _ H') as [before [after [-> ->]]].
    exists (String c before), after. simpl. split; [reflexivity | lia]. }
  destruct esc; [eauto|].
  destruct (Ascii.eqb c "\"); [eauto|].
  destruct (Ascii.eqb c dquote && negb false); [eauto|].
  destruct (negb ins); [|eauto].
  destruct (Ascii.eqb c "{"); [eauto|].
  destruct (Ascii.eqb c "}") eqn:E; [|eauto].
  destruct (bc - 1 =? 0); [|eauto].
  injection H as <-. apply Ascii.eqb_eq in E. subst c.
  exists "", s. simpl. split; [reflexivity | lia].
Qed.

Lemma slice_of_parts before middle after :
  slice (before ++ middle ++ after)
        (Z.of_nat (String.length before))
        (Z.of_nat (String.length before) + Z.of_nat (String.length middle))
  = middle.
Proof.
  unfold slice. rewrite Nat2Z.id, drop_app_length.
  replace (Z.to_nat (Z.of_nat (String.length before) + Z.of_nat (String.length middle)
                     - Z.of_nat (String.length before)))
    with (0 + String.length middle)%nat by lia.
  rewrite prefix_of_app. simpl. apply append_empty_r.
Qed.

Lemma append_length (a b : string) :
  String.length (a ++ b) = (String.length a + String.length b)%nat.
Proof. induction a as [|x a IH]; simpl; [|rewrite IH]; reflexivity. Qed.

(** X10.  The brace-balanced extract is the text itself, or else the
    part of it that runs from its first opening brace to a closing
    brace: no opening brace stands before it, it starts with an opening
    and ends with a closing brace.  A text without an opening brace is
    left as it is. *)
Theorem extract_is_a_braced_part cleaned :
  let out := extract_balanced cleaned in
  (out = cleaned
   \/ exists before inner after,
        cleaned = before ++ String "{" (inner ++ String "}" after)
        /\ out = String "{" (inner ++ "}")
        /\ find "{" before = -1)
  /\ (find "{" cleaned = -1 -> out = cleaned).
Proof.
  intros out. subst out. unfold extract_balanced.
  destruct (find "{" cleaned =? -1) eqn:F; cbn [negb]; [auto|].
  apply Z.eqb_neq in F. split; [|congruence].
  destruct (find_split "{" cleaned F) as [before [rest [Hc [Hlen Hno]]]].
  rewrite <- Hlen, Nat2Z.id.
  assert (Hdrop : Re.drop (String.length before) cleaned = String "{" rest)
    by (rewrite Hc; apply drop_app_length).
  rewrite Hdrop.
  destruct (balance_loop (String "{" rest) _ 0 false false) as [e|] eqn:B.
  - pose proof (balance_loop_after _ _ _ _ _ _ B) as Hlt.
    destruct (balance_loop_split _ _ _ _ _ _ B) as [p [q [Hp He]]].
    replace (Z.of_nat (String.length before) <? e) with true
      by (symmetry; apply Z.ltb_lt; lia).
    destruct p as [|x p']; [discriminate|]. simpl in Hp. injection Hp as <- ->.
    right. exists before, p', q. split; [exact Hc|]. split; [|exact Hno].
    subst e cleaned.
    assert (E : String "{" (p' ++ String "}" q) = String "{" (p' ++ "}") ++ q)
      by (simpl; rewrite append_assoc; reflexivity).
    rewrite E.
    replace (Z.of_nat (String.length before) + Z.of_nat (String.length (String "{" p')) + 1)
      with (Z.of_nat (String.length before)
            + Z.of_nat (String.length (String "{" (p' ++ "}"))))
      by (simpl String.length; rewrite append_length; simpl String.length; lia).
    apply slice_of_parts.
  - replace (Z.of_nat (String.length before) <? Z.of_nat (String.length before)) with false
      by (symmetry; apply Z.ltb_ge; lia).
    destruct (Z.of_nat (String.length before) <? rfind "}" cleaned) eqn:R; [|auto].
    apply Z.ltb_lt in R.
    assert (Hr : rfind "}" cleaned <> -1) by lia.
    destruct (rfind_split "}" cleaned Hr) as [b2 [a2 [Hc2 Hlen2]]].
    right.
    (* the closing brace stands after the opening one *)
    assert (Hsplit : exists inner, b2 = before ++ String "{" inner).
    { assert (Hl : (String.length before < String.length b2)%nat) by lia.
      clear - Hc Hc2 Hl. rewrite Hc in Hc2. clear Hc.
      revert b2 Hc2 Hl. induction before as [|x before IH]; intros b2 Hc2 Hl.
      - destruct b2 as [|y b2]; [simpl in Hl; lia|].
        simpl in Hc2. injection Hc2 as <- _. exists b2. reflexivity.
      - destruct b2 as [|y b2]; [simpl in Hl; lia|].
        simpl in Hc2. injection Hc2 as <- Hc2.
        destruct (IH b2 Hc2) as [inner ->]; [simpl in Hl; lia|].
        exists inner. reflexivity. }
    destruct Hsplit as [inner ->].
    exists before, inner, a2. split; [|split; [|exact Hno]].
    + rewrite Hc2. rewrite append_assoc. reflexivity.
    + rewrite <- Hlen2, Hc2.
      replace ((before ++ String "{" inner) ++ String "}" a2)
        with (before ++ (String "{" (inner ++ "}")) ++ a2)
        by (rewrite !append_assoc; simpl; rewrite append_assoc; reflexivity).
      replace (Z.of_nat (String.length (before ++ String "{" inner)) + 1)
        with (Z.of_nat (String.length before)
              + Z.of_nat (String.length (String "{" (inner ++ "}"))))
        by (rewrite append_length; simpl; rewrite append_length; simpl; lia).
      apply slice_of_parts.
Qed.

Lemma extract_is_a_braced_part_witness :
  extract_balanced "no braces here" = "no braces here".
Proof.
  apply (proj2 (extract_is_a_braced_part "no braces here")). reflexivity.
Defined.

(** ** The repair pass *)

Lemma repair_loop_inserts s : forall result in_string escape_next,
  exists out,
    join (repair_loop s result in_string escape_next) = join result ++ out
    /\ escapes_inserted s out.
Proof.
  induction s as [|c s IH]; intros result ins esc.
  - exists "". split; [symmetry; apply append_empty_r | constructor].
  - assert (Hkeep : forall i e,
              exists out,
                join (repair_loop s (result ++ [String c ""]) i e) = join result ++ out
                /\ escapes_inserted (String c s) out).
    { intros i e. destruct (IH (result ++ [String c ""])%list i e) as [out [-> Hout]].
      exists (String c out). rewrite join_app, append_assoc. split; [reflexivity|].
      constructor. exact Hout. }
    cbn [repair_loop].
    destruct esc; [apply Hkeep|].
    destruct (Ascii.eqb c "\"); [apply Hkeep|].
    destruct (Ascii.eqb c dquote) eqn:Q; [|apply Hkeep].
    destruct (ins && is_value_position result); [|apply Hkeep].
    apply Ascii.eqb_eq in Q. subst c.
    destruct (IH (result ++ [String "\" (String dquote "")])%list ins false)
      as [out [-> Hout]].
    exists (String "\" (String dquote out)). rewrite join_app, append_assoc.
    split; [reflexivity|]. constructor. exact Hout.
Qed.

Lemma escapes_inserted_length s t :
  escapes_inserted s t -> (String.length s <= String.length t)%nat.
Proof. induction 1; simpl; lia. Qed.

Lemma escapes_inserted_without_quote s t :
  escapes_inserted s t -> Py.char_in dquote s = false -> t = s.
Proof.
  induction 1 as [|c s t H IH|s t H IH]; simpl; intros Hq.
  - reflexivity.
  - apply orb_false_iff in Hq. destruct Hq as [_ Hq]. rewrite (IH Hq). reflexivity.
  - discriminate.
Qed.

Lemma escapes_inserted_same_length s t :
  escapes_inserted s t -> String.length t = String.length s -> t = s.
Proof.
  induction 1 as [|c s t H IH|s t H IH]; simpl; intros Hl.
  - reflexivity.
  - rewrite IH; [reflexivity | lia].
  - apply escapes_inserted_length in H. lia.
Qed.

(** X11.  The repair pass only ever puts a backslash before a quote:
    its output is the input with some quotes escaped and every other
    character in place.  So it never shortens the text, a text without
    a quote is returned as it is, and so is every text that comes out
    with its length unchanged. *)
Theorem repair_only_escapes_quotes json_str :
  escapes_inserted json_str (_repair_json_strings json_str)
  /\ (String.length json_str <= String.length (_repair_json_strings json_str))%nat
  /\ (Py.char_in dquote json_str = false -> _repair_json_strings json_str = json_str)
  /\ (String.length (_repair_json_strings json_str) = String.length json_str ->
      _repair_json_strings json_str = json_str).
Proof.
  assert (H : escapes_inserted json_str (_repair_json_strings json_str)).
  { unfold _repair_json_strings.
    destruct (repair_loop_inserts json_str [] false false) as [out [-> Hout]].
    exact Hout. }
  split; [exact H|]. split; [apply escapes_inserted_length; exact H|].
  split; [apply escapes_inserted_without_quote | apply escapes_inserted_same_length];
    exact H.
Qed.

Lemma repair_only_escapes_quotes_witness :
  _repair_json_strings "{status: 1}" = "{status: 1}".
Proof.
  apply (proj1 (proj2 (proj2 (repair_only_escapes_quotes "{status: 1}")))).
  reflexivity.
Defined.

(** ** The cleaning of an answer *)

Lemma rstrip_idem s : Py.rstrip (Py.rstrip s) = Py.rstrip s.
Proof.
  induction s as [|c s IH]; [reflexivity|]. cbn [Py.rstrip].
  destruct (Py.isspace c && Py.is_empty (Py.rstrip s)) eqn:E; [reflexivity|].
  cbn [Py.rstrip]. rewrite IH, E. reflexivity.
Qed.

Lemma lstrip_head s :
  Py.lstrip s = "" \/ exists c t, Py.lstrip s = String c t /\ Py.isspace c = false.
Proof.
  induction s as [|c s IH]; simpl; [auto|].
  destruct (Py.isspace c) eqn:E; [exact IH|]. right. eauto.
Qed.

Lemma lstrip_rstrip_lstrip s :
  Py.lstrip (Py.rstrip (Py.lstrip s)) = Py.rstrip (Py.lstrip s).
Proof.
  destruct (lstrip_head s) as [-> | [c [t [-> Hc]]]]; [reflexivity|].
  cbn [Py.rstrip]. rewrite Hc. cbn [andb Py.lstrip]. rewrite Hc. reflexivity.
Qed.

Lemma strip_idem s : Py.strip (Py.strip s) = Py.strip s.
Proof.
  unfold Py.strip. rewrite lstrip_rstrip_lstrip. apply rstrip_idem.
Qed.

Lemma chars_length s : length (chars s) = String.length s.
Proof. induction s as [|c s IH]; simpl; [|rewrite IH]; reflexivity. Qed.

Lemma lstrip_chars s : subseq (chars (Py.lstrip s)) (chars s).
Proof.
  induction s as [|c s IH]; simpl; [constructor|].
  destruct (Py.isspace c); [constructor; exact IH | apply subseq_refl].
Qed.

Lemma rstrip_chars s : subseq (chars (Py.rstrip s)) (chars s).
Proof.
  induction s as [|c s IH]; simpl; [constructor|].
  destruct (Py.isspace c && Py.is_empty (Py.rstrip s)).
  - apply subseq_nil_l.
  - apply subseq_keep. exact IH.
Qed.

Lemma strip_chars s : subseq (chars (Py.strip s)) (chars s).
Proof.
  unfold Py.strip.
  apply subseq_trans with (chars (Py.lstrip s)); [apply rstrip_chars | apply lstrip_chars].
Qed.

Lemma sub_open_fence_chars s : forall bol skip,
  subseq (chars (Re.sub_open_fence bol skip s)) (chars s).
Proof.
  induction s as [|c s IH]; intros bol skip; [constructor|].
  cbn [Re.sub_open_fence].
  destruct skip as [|k]; [|apply subseq_skip, IH].
  destruct (if bol then Re.open_fence_len (String c s) else None).
  - apply subseq_skip, IH.
  - apply (subseq_keep c), IH.
Qed.

Lemma sub_close_fence_chars s : forall skip,
  subseq (chars (Re.sub_close_fence skip s)) (chars s).
Proof.
  induction s as [|c s IH]; intros skip; [constructor|].
  cbn [Re.sub_close_fence].
  destruct skip as [|k]; [|apply subseq_skip, IH].
  destruct (Re.close_fence_len (String c s)).
  - apply subseq_skip, IH.
  - apply (subseq_keep c), IH.
Qed.

(** X12.  Cleaning an answer only deletes characters, and what it
    returns has no blank at either end: cleaning it again as a plain
    text changes nothing. *)
Theorem cleaning_only_deletes response_text :
  subseq (chars (_clean_json_response response_text)) (chars response_text)
  /\ Py.strip (_clean_json_response response_text) = _clean_json_response response_text
  /\ Py.len (_clean_json_response response_text) <= Py.len response_text.
Proof.
  assert (H : subseq (chars (_clean_json_response response_text)) (chars response_text)).
  { unfold _clean_json_response.
    destruct (Py.startswith "```" (Py.strip response_text)); [|apply strip_chars].
    eapply subseq_trans; [apply strip_chars|].
    eapply subseq_trans; [apply sub_close_fence_chars|].
    eapply subseq_trans; [apply sub_open_fence_chars | apply strip_chars]. }
  split; [exact H|]. split.
  - unfold _clean_json_response.
    destruct (Py.startswith "```" (Py.strip response_text)); apply strip_idem.
  - apply subseq_length in H. rewrite !chars_length in H. unfold Py.len. lia.
Qed.













(** ** The sanitiser and the context shown to the model *)

Lemma sanitize_char c :
  (let c1 := if Ascii.eqb c dquote then dquote else c in
   let c2 := if Ascii.eqb c1 dquote then dquote else c1 in
   let c3 := if Ascii.eqb c2 dquote then dquote else c2 in
   let c4 := if Ascii.eqb c3 "187" then dquote else c3 in
   if Ascii.eqb c4 "171" then dquote else c4)
  = if is_guillemet c then dquote else c.
Proof.
  unfold is_guillemet. cbv zeta.
  destruct (Ascii.eqb c dquote) eqn:Q.
  - apply Ascii.eqb_eq in Q. subst c. reflexivity.
  - rewrite !Q. destruct (Ascii.eqb c "187") eqn:G.
    + apply Ascii.eqb_eq in G. subst c. reflexivity.
    + rewrite orb_false_r. reflexivity.
Qed.

Lemma sanitize_chars text :
  chars (_sanitize_text text)
  = map (fun c => if is_guillemet c then dquote else c) (chars text).
Proof.
  unfold _sanitize_text.
  induction text as [|c text IH]; [reflexivity|].
  cbn [replace_char chars list_ascii_of_string map].
  fold (chars text). rewrite <- IH. f_equal. exact (sanitize_char c).
Qed.

Lemma chars_inj s t : chars s = chars t -> s = t.
Proof.
  revert t. induction s as [|c s IH]; intros [|d t] H; try discriminate; [reflexivity|].
  simpl in H. injection H as -> H. rewrite (IH t H). reflexivity.
Qed.

(** X14.  The sanitiser changes the two guillemets into quotes and
    nothing else: every other character, the plain quote among them,
    stays where it is.  So it keeps the length, leaves no guillemet,
    changes nothing when applied again, and returns a text without
    guillemets as it is. *)
Theorem sanitizer_rewrites_guillemets_only text :
  chars (_sanitize_text text)
    = map (fun c => if is_guillemet c then dquote else c) (chars text)
  /\ String.length (_sanitize_text text) = String.length text
  /\ all_chars (fun c => negb (is_guillemet c)) (_sanitize_text text) = true
  /\ _sanitize_text (_sanitize_text text) = _sanitize_text text
  /\ (all_chars (fun c => negb (is_guillemet c)) text = true ->
      _sanitize_text text = text).
Proof.
  assert (Hfix : forall t, all_chars (fun c => negb (is_guillemet c)) t = true ->
                           _sanitize_text t = t).
  { intros t Ht. apply chars_inj. rewrite sanitize_chars.
    induction t as [|c t IH]; [reflexivity|].
    simpl in Ht. apply andb_prop in Ht. destruct Ht as [Hc Ht].
    cbn [chars list_ascii_of_string map]. fold (chars t). rewrite (IH Ht).
    destruct (is_guillemet c); [discriminate | reflexivity]. }
  assert (Hclean : all_chars (fun c => negb (is_guillemet c)) (_sanitize_text text) = true).
  { unfold _sanitize_text. induction text as [|c text IH]; [reflexivity|].
    cbn [replace_char all_chars]. rewrite IH, andb_true_r.
    pose proof (sanitize_char c) as E. cbv zeta in E. rewrite E.
    destruct (is_guillemet c) eqn:G; [reflexivity | rewrite G; reflexivity]. }
  split; [apply sanitize_chars|]. split.
  - rewrite <- !chars_length, sanitize_chars. apply length_map.
  - split; [exact Hclean|]. split; [apply Hfix; exact Hclean | apply Hfix].
Qed.

Lemma sanitizer_rewrites_guillemets_only_witness :
  _sanitize_text "plain text" = "plain text".
Proof.
  apply (proj2 (proj2 (proj2 (proj2 (sanitizer_rewrites_guillemets_only "plain text"))))).
  reflexivity.
Defined.

Lemma infix_of_join sep fs part : In part fs -> infix_of part (join_with sep fs).
Proof.
  induction fs as [|x fs IH]; intros H; [contradiction|].
  destruct fs as [|y fs].
  - destruct H as [-> | []]. exists "", "". simpl. symmetry. apply append_empty_r.
  - change (join_with sep (x :: y :: fs)) with (x ++ sep ++ join_with sep (y :: fs)).
    destruct H as [-> | H].
    + exists "", (sep ++ join_with sep (y :: fs)). reflexivity.
    + destruct (IH H) as [before [after ->]].
      exists (x ++ sep ++ before), after. rewrite !append_assoc. reflexivity.
Qed.

Lemma infix_of_wrap part s p q : infix_of part s -> infix_of part (p ++ s ++ q).
Proof.
  intros [before [after ->]]. exists (p ++ before), (after ++ q).
  rewrite !append_assoc. reflexivity.
Qed.

Lemma format_results_nth search_results : forall i k r,
  nth_error search_results k = Some r ->
  In ("[SOURCE " ++ str_of_Z (i + Z.of_nat k) ++ "] Title: "
      ++ _sanitize_text (title r) ++ newline
      ++ "URL: " ++ url r ++ newline
      ++ "Snippet: " ++ _sanitize_text (snippet r))
     (format_results i search_results).
Proof.
  induction search_results as [|x l IH]; intros i k r H; [destruct k; discriminate|].
  destruct k as [|k].
  - injection H as ->. left. rewrite Z.add_0_r. reflexivity.
  - right. replace (i + Z.of_nat (S k)) with (i + 1 + Z.of_nat k) by lia.
    apply IH. exact H.
Qed.

(** X15.  The context shown to the model lists every evidence item, in
    a block that carries its number (counted from 1), its sanitised
    title, its url as it is and its sanitised snippet; and the buffer the
    reconciler later maps from holds exactly the items shown. *)
Theorem context_lists_every_item self search_results language k r :
  nth_error search_results k = Some r ->
  infix_of ("[SOURCE " ++ str_of_Z (Z.of_nat k + 1) ++ "] Title: "
            ++ _sanitize_text (title r) ++ newline
            ++ "URL: " ++ url r ++ newline
            ++ "Snippet: " ++ _sanitize_text (snippet r))
           (fst (_build_search_context self search_results language))
  /\ nth_error (_current_search_results
                  (snd (_build_search_context self search_results language))) k
     = Some r.
Proof.
  intros H. split; [|rewrite buffer_after_context; exact H].
  pose proof (format_results_nth search_results 1 k r H) as Hin.
  replace (1 + Z.of_nat k) with (Z.of_nat k + 1) in Hin by lia.
  apply (infix_of_join (newline ++ newline)) in Hin.
  unfold _build_search_context.
  destruct search_results as [|x l]; [destruct k; discriminate|].
  cbn [is_nil negb fst].
  set (shown := join_with (newline ++ newline) (format_results 1 (x :: l))) in *.
  destruct Hin as [before [after E]].
  destruct (String.eqb language "de"); cbn [fst]; rewrite E;
    match goal with
    | |- infix_of _ (_ ++ ?closing) =>
        exists (newline ++ newline ++ "=== WEB SEARCH RESULTS ===" ++ newline ++ before),
               (after ++ closing)
    end;
    rewrite !append_assoc; reflexivity.
Qed.

Lemma context_lists_every_item_witness :
  infix_of ("[SOURCE " ++ str_of_Z (Z.of_nat 0 + 1) ++ "] Title: "
            ++ _sanitize_text (title wall_item) ++ newline
            ++ "URL: " ++ url wall_item ++ newline
            ++ "Snippet: " ++ _sanitize_text (snippet wall_item))
           (fst (_build_search_context ready_service [wall_item] "en"))
  /\ nth_error (_current_search_results
                  (snd (_build_search_context ready_service [wall_item] "en"))) 0
     = Some wall_item.
Proof.
  apply (context_lists_every_item ready_service [wall_item] "en" 0 wall_item).
  reflexivity.
Defined.

(** ** Claims the expander derives nothing from *)

Lemma no_capital_no_noun s : forall prev_word skip,
  all_chars (fun c => negb (Py.isupper c)) s = true ->
  Re.findall_proper_nouns prev_word skip s = [].
Proof.
  induction s as [|c s IH]; intros prev skip H; [reflexivity|].
  simpl in H. apply andb_prop in H. destruct H as [Hc H].
  cbn [Re.findall_proper_nouns]. destruct skip as [|k]; [|apply IH; exact H].
  assert (E : (if prev then None else Re.noun_len Re.WantUpper 0 None (String c s)) = None).
  { destruct prev; [reflexivity|]. cbn [Re.noun_len].
    destruct (Py.isupper c); [discriminate | reflexivity]. }
  rewrite E. apply IH. exact H.
Qed.

Lemma no_two_no_year s : forall prev_word skip,
  all_chars (fun c => negb (Ascii.eqb c "2")) s = true ->
  Re.findall_years prev_word skip s = [].
Proof.
  induction s as [|c s IH]; intros prev skip H; [reflexivity|].
  simpl in H. apply andb_prop in H. destruct H as [Hc H].
  cbn [Re.findall_years]. destruct skip as [|k]; [|apply IH; exact H].
  assert (E : (if prev then None else Re.year_at (String c s)) = None).
  { destruct prev; [reflexivity|]. unfold Re.year_at.
    cbn [Py.prefix_of String.eqb].
    destruct (Ascii.eqb c "2"); [discriminate | reflexivity]. }
  rewrite E. apply IH. exact H.
Qed.

(** X16.  A claim with no capital letter, no digit 2 and no mention of
    merz is searched for exactly once, as it stands: the expander
    derives no query, the claim is the only query run, and the evidence
    is the ranked, deduplicated answer to that one search. *)
Theorem plain_claim_is_searched_once w self claim language :
  plain_claim claim = true ->
  _extract_all_search_queries claim language = []
  /\ executed_queries claim language = [claim]
  /\ (web_search_enabled self = true ->
      _perform_web_searches w self claim language
      = _filter_search_results
          (unique_by_url (search w 1 claim RESULTS_PER_QUERY language) [])
          claim MAX_FILTERED_RESULTS).
Proof.
  unfold plain_claim. intros H.
  apply andb_prop in H. destruct H as [H Hm].
  apply andb_prop in H. destruct H as [Hn Hy].
  apply negb_true_iff in Hm.
  assert (Hq : _extract_all_search_queries claim language = []).
  { unfold _extract_all_search_queries, derived_queries.
    rewrite (no_capital_no_noun _ _ _ Hn), (no_two_no_year _ _ _ Hy).
    unfold merz_queries. rewrite Hm.
    destruct (String.eqb language "de"); reflexivity. }
  assert (He : executed_queries claim language = [claim]).
  { unfold executed_queries, search_queries. rewrite Hq. reflexivity. }
  split; [exact Hq|]. split; [exact He|].
  intros Hw. unfold _perform_web_searches. rewrite Hw, He. cbn [negb search_loop].
  destruct (search w 1 claim RESULTS_PER_QUERY language); reflexivity.
Qed.

Lemma plain_claim_is_searched_once_witness :
  executed_queries "the earth is flat" "en" = ["the earth is flat"].
Proof.
  apply (proj1 (proj2 (plain_claim_is_searched_once
                         citing_world ready_service "the earth is flat" "en"
                         eq_refl))).
Defined.

(** X17.  German is the only language the expander knows besides
    English: for every other language code the queries derived, the
    query list and the queries run are those of English. *)
Theorem other_languages_get_english_queries claim language :
  String.eqb language "de" = false ->
  _extract_all_search_queries claim language = _extract_all_search_queries claim "en"
  /\ search_queries claim language = search_queries claim "en"
  /\ executed_queries claim language = executed_queries claim "en".
Proof.
  intros L.
  assert (E : _extract_all_search_queries claim language
              = _extract_all_search_queries claim "en")
    by (unfold _extract_all_search_queries; rewrite (derived_not_de _ _ L); reflexivity).
  unfold executed_queries, search_queries. rewrite E. auto.
Qed.

Lemma other_languages_get_english_queries_witness :
  executed_queries "Angela Merkel wrote a book" "fr"
  = executed_queries "Angela Merkel wrote a book" "en".
Proof.
  apply (proj2 (proj2 (other_languages_get_english_queries
                         "Angela Merkel wrote a book" "fr" eq_refl))).
Defined.

(** ** The retry loop of the providers *)

Lemma request_text_nonempty service_name client attempt prompt is_veracity text :
  Provider.request_text service_name client attempt prompt is_veracity = Returns text ->
  text <> "".
Proof.
  unfold Provider.request_text.
  destruct (client attempt prompt _) as [[|[first|] rest]|e]; cbn [bind];
    try discriminate.
  destruct first; cbn [Py.is_empty]; [discriminate|].
  intros H. injection H as <-. discriminate.
Qed.

Lemma backoff_sum n : forall attempt,
  0 <= attempt ->
  fold_right Z.add 0 (backoff attempt n) = 2 ^ attempt * (2 ^ Z.of_nat n - 1).
Proof.
  induction n as [|n IH]; intros attempt Ha.
  - simpl. lia.
  - cbn [backoff fold_right]. rewrite IH by lia.
    rewrite Nat2Z.inj_succ, !Z.pow_succ_r by lia. rewrite Z.pow_add_r by lia.
    change (2 ^ 1) with 2. lia.
Qed.

Lemma retry_loop_spec service_name client prompt is_veracity max_retries :
  forall remaining attempt slept,
    0 <= attempt ->
    attempt + Z.of_nat remaining = max_retries ->
    (1 <= remaining)%nat ->
    let run := Provider.retry_loop service_name client prompt is_veracity max_retries
                                   remaining attempt slept in
    exists k : nat,
      attempt + Z.of_nat k < max_retries
      /\ snd run = (slept ++ backoff attempt k)%list
      /\ (forall j, (j < k)%nat ->
            exists e, Provider.request_text service_name client
                        (attempt + Z.of_nat j) prompt is_veracity = Raises e)
      /\ ((exists text,
             fst run = Returns (Some text)
             /\ Provider.request_text service_name client
                  (attempt + Z.of_nat k) prompt is_veracity = Returns text)
          \/ (attempt + Z.of_nat k = max_retries - 1
              /\ exists e,
                   fst run = Raises e
                   /\ Provider.request_text service_name client
                        (attempt + Z.of_nat k) prompt is_veracity = Raises e)).
Proof.
  induction remaining as [|remaining IH]; intros attempt slept Ha Hsum Hpos; [lia|].
  cbn [Provider.retry_loop].
  destruct (Provider.request_text service_name client attempt prompt is_veracity)
    as [text|e] eqn:R.
  - exists 0%nat. rewrite Z.add_0_r. cbn [backoff fst snd].
    split; [lia|]. split; [symmetry; apply app_nil_r|]. split; [intros j Hj; lia|].
    left. exists text. auto.
  - destruct (attempt <? max_retries - 1) eqn:L.
    + apply Z.ltb_lt in L.
      destruct (IH (attempt + 1) (slept ++ [2 ^ attempt])%list) as [k [Hk [Hs [Hf Hr]]]];
        [lia | lia | lia |].
      exists (S k). rewrite Nat2Z.inj_succ.
      replace (attempt + Z.succ (Z.of_nat k)) with (attempt + 1 + Z.of_nat k) by lia.
      split; [exact Hk|]. split.
      * rewrite Hs, <- app_assoc. reflexivity.
      * split; [|exact Hr]. intros [|j] Hj.
        -- exists e. rewrite Z.add_0_r. exact R.
        -- replace (attempt + Z.of_nat (S j)) with (attempt + 1 + Z.of_nat j) by lia.
           apply Hf. lia.
    + apply Z.ltb_ge in L. exists 0%nat. rewrite Z.add_0_r. cbn [backoff fst snd].
      split; [lia|]. split; [symmetry; apply app_nil_r|]. split; [intros j Hj; lia|].
      right. split; [lia|]. exists e. auto.
Qed.

(** X18.  The retry loop of a provider, for [max_retries >= 1]: the
    call ends at some attempt k below [max_retries], after every
    earlier attempt failed and [2 ^ j] seconds were slept after the
    j-th of them, 2^k - 1 seconds in all; it either returns the text of
    attempt k, which is not empty, or k is the last attempt and its
    exception is raised.  For [max_retries <= 0] no request is sent and
    the call returns [None]. *)
Theorem retry_loop_contract service_name client prompt max_retries is_veracity :
  let run := Provider._make_api_call service_name client prompt max_retries is_veracity in
  (max_retries <= 0 -> run = (Returns None, []))
  /\ (1 <= max_retries ->
      exists k : nat,
        Z.of_nat k < max_retries
        /\ snd run = backoff 0 k
        /\ fold_right Z.add 0 (snd run) = 2 ^ Z.of_nat k - 1
        /\ (forall j, (j < k)%nat ->
              exists e, Provider.request_text service_name client
                          (Z.of_nat j) prompt is_veracity = Raises e)
        /\ ((exists text,
               fst run = Returns (Some text)
               /\ text <> ""
               /\ Provider.request_text service_name client
                    (Z.of_nat k) prompt is_veracity = Returns text)
            \/ (Z.of_nat k = max_retries - 1
                /\ exists e,
                     fst run = Raises e
                     /\ Provider.request_text service_name client
                          (Z.of_nat k) prompt is_veracity = Raises e))).
Proof.
  intros run. subst run. unfold Provider._make_api_call. split.
  - intros H. replace (Z.to_nat max_retries) with 0%nat by lia. reflexivity.
  - intros H.
    destruct (retry_loop_spec service_name client prompt is_veracity max_retries
                (Z.to_nat max_retries) 0 []) as [k [Hk [Hs [Hf Hr]]]]; [lia | lia | lia |].
    exists k. cbn [app] in Hs. split; [lia|]. split; [exact Hs|]. split.
    + rewrite Hs, backoff_sum by lia. lia.
    + split; [exact Hf|]. destruct Hr as [[text [H1 H2]] | [H1 H2]].
      * left. exists text. split; [exact H1|]. split; [|exact H2].
        exact (request_text_nonempty _ _ _ _ _ _ H2).
      * right. split; [lia | exact H2].
Qed.

Lemma retry_loop_contract_witness :
  exists k : nat,
    Z.of_nat k < 3
    /\ snd (Provider._make_api_call "Claude" flaky_client "prompt" 3 true) = backoff 0 k.
Proof.
  destruct (proj2 (retry_loop_contract "Claude" flaky_client "prompt" 3 true))
    as [k [H1 [H2 _]]]; [lia|].
  exists k. split; [exact H1 | exact H2].
Defined.

(** ** The status of a verdict as the API's enum *)

(** X19.  The status of every verdict of [analyze_veracity] is the
    value of a member of [VeracityStatus], and [_map_veracity_status]
    maps it to that member: the mapping never raises on it and never
    has to fall back to its default.  Every member is the image of its
    own value. *)
Theorem status_maps_to_its_enum w self claim language :
  (exists v,
     _map_veracity_status (status (fst (analyze_veracity w self claim language)))
     = Returns v
     /\ status (fst (analyze_veracity w self claim language))
        = PyStr (VeracityStatus_value v))
  /\ (forall v, _map_veracity_status (PyStr (VeracityStatus_value v)) = Returns v).
Proof.
  split; [|intros []; reflexivity].
  pose proof (analyzer_status_is_valid w self claim language) as H.
  destruct (status _) as [| | | |s| |]; try discriminate.
  unfold is_valid_status in H. apply existsb_exists in H.
  destruct H as [x [Hx E]]. apply String.eqb_eq in E. subst x.
  destruct Hx as [<- | [<- | [<- | [<- | []]]]].
  - exists FACTUALLY_CORRECT. split; reflexivity.
  - exists UNTRUTH. split; reflexivity.
  - exists MISLEADING. split; reflexivity.
  - exists UNVERIFIABLE. split; reflexivity.
Qed.

(** ** Stripping the tags of a search result *)

Lemma find_range c s : find c s = -1 \/ 0 <= find c s.
Proof.
  induction s as [|x s IH]; simpl; [auto|].
  destruct (Ascii.eqb c x); [right; lia|].
  destruct (find c s =? -1) eqn:E; [auto|]. apply Z.eqb_neq in E. lia.
Qed.

Lemma find_cons_other c d s :
  Ascii.eqb c d = false ->
  find c (String d s) = if find c s =? -1 then -1 else find c s + 1.
Proof. intros H. cbn [find]. rewrite H. reflexivity. Qed.

Lemma find_cons_none c d s :
  find c (String d s) = -1 -> Ascii.eqb c d = false /\ find c s = -1.
Proof.
  simpl. destruct (Ascii.eqb c d); [discriminate|].
  destruct (find c s =? -1) eqn:E; [apply Z.eqb_eq in E; auto|].
  pose proof (find_range c s) as R. apply Z.eqb_neq in E. intros H. lia.
Qed.

Lemma find_none_sub_tags c s : forall skip,
  find c s = -1 -> find c (Html.sub_tags skip s) = -1.
Proof.
  induction s as [|d s IH]; intros skip H; [reflexivity|].
  destruct (find_cons_none c d s H) as [Hd Hs].
  cbn [Html.sub_tags]. destruct skip as [|k]; [|apply IH; exact Hs].
  destruct (Html.tag_len (String d s)); [apply IH; exact Hs|].
  simpl. rewrite Hd, (IH 0%nat Hs). reflexivity.
Qed.

Lemma tag_len_kept c s :
  Html.tag_len (String c s) = None ->
  Html.tag_len (String c (Html.sub_tags 0 s)) = None.
Proof.
  unfold Html.tag_len.
  destruct (Ascii.eqb c "<") eqn:C.
  - apply Ascii.eqb_eq in C. subst c.
    destruct (1 <=? find ">" s) eqn:F; [discriminate|]. intros _.
    apply Z.leb_gt in F.
    destruct s as [|d s]; [reflexivity|].
    destruct (Ascii.eqb ">" d) eqn:D.
    + apply Ascii.eqb_eq in D. subst d. reflexivity.
    + assert (Hn : find ">" (String d s) = -1).
      { rewrite (find_cons_other _ _ _ D) in *. revert F.
        destruct (find ">" s =? -1) eqn:E; intros F; [reflexivity|].
        apply Z.eqb_neq in E. pose proof (find_range ">" s). lia. }
      rewrite (find_none_sub_tags ">" _ 0%nat Hn). reflexivity.
  - intros _.
    destruct c as [[] [] [] [] [] [] [] []]; try reflexivity; discriminate.
Qed.

Lemma sub_tags_tag_free s : forall skip, tag_free (Html.sub_tags skip s) = true.
Proof.
  induction s as [|c s IH]; intros skip; [reflexivity|].
  cbn [Html.sub_tags]. destruct skip as [|k]; [|apply IH].
  destruct (Html.tag_len (String c s)) eqn:T; [apply IH|].
  cbn [tag_free]. rewrite (tag_len_kept c s T). apply IH.
Qed.

Lemma tag_free_fixed s : tag_free s = true -> Html.sub_tags 0 s = s.
Proof.
  induction s as [|c s IH]; intros H; [reflexivity|].
  cbn [tag_free] in H. cbn [Html.sub_tags].
  destruct (Html.tag_len (String c s)); [discriminate|].
  rewrite (IH H). reflexivity.
Qed.

Lemma sub_tags_chars s : forall skip, subseq (chars (Html.sub_tags skip s)) (chars s).
Proof.
  induction s as [|c s IH]; intros skip; [constructor|].
  cbn [Html.sub_tags]. destruct skip as [|k]; [|apply subseq_skip, IH].
  destruct (Html.tag_len (String c s)).
  - apply subseq_skip, IH.
  - apply (subseq_keep c), IH.
Qed.

Lemma tag_free_without_open s : find "<" s = -1 -> tag_free s = true.
Proof.
  induction s as [|c s IH]; intros H; [reflexivity|].
  destruct (find_cons_none "<" c s H) as [C E].
  cbn [tag_free]. rewrite (IH E).
  unfold Html.tag_len.
  destruct c as [[] [] [] [] [] [] [] []]; try reflexivity; discriminate.
Qed.

(** X20.  Stripping the tags of a title or snippet only deletes
    characters and leaves no tag behind: no match of the tag pattern
    starts anywhere in the result, so stripping again changes nothing;
    a text without an opening angle bracket is returned as it is. *)
Theorem stripped_text_has_no_tag s :
  subseq (chars (Html.strip_tags s)) (chars s)
  /\ tag_free (Html.strip_tags s) = true
  /\ Html.strip_tags (Html.strip_tags s) = Html.strip_tags s
  /\ (find "<" s = -1 -> Html.strip_tags s = s).
Proof.
  unfold Html.strip_tags.
  split; [apply sub_tags_chars|]. split; [apply sub_tags_tag_free|].
  split; [apply tag_free_fixed, sub_tags_tag_free|].
  intros H. apply tag_free_fixed, tag_free_without_open. exact H.
Qed.

Lemma stripped_text_has_no_tag_witness :
  Html.strip_tags "Berlin Wall" = "Berlin Wall".
Proof.
  apply (proj2 (proj2 (proj2 (stripped_text_has_no_tag "Berlin Wall")))). reflexivity.
Defined.

(** ** The triage of a post *)














(** ** The scores of an analysis *)








